(** * livecam: launcher, pipeline builder, relay and orchestrator

    A shallow embedding of [src/livecam.js].  The file as given carries two
    listings of the module, one after the other: the first on lines 1-419
    and the second on lines 420-833.  They share most of their text; where
    they differ the definitions below take a [listing] and follow each one
    literally.

    Modelling conventions:
    - a JavaScript string is a [string] whose characters are code units in
      the range U+0000..U+00FF;
    - a JavaScript number is the number value of an integer (the integer
      itself up to 2^53 in magnitude, the nearest number beyond, whose text
      is the runtime's) or NaN; fractional values lie outside the model;
    - an object is a plain data object: a list of own properties, looked up
      by name, with no accessors and no overridden conversion methods;
    - code that can raise returns a [result]; [try]/[catch] is [try_catch];
    - what the host machine answers (environment, file system, child
      process output) is a [host] record; the functions of the runtime that
      are only called, never defined, by the module are the class [Runtime]. *)

From Stdlib Require Import ZArith List String Ascii Bool Lia DecimalString.
Import ListNotations.
Local Open Scope list_scope.
Local Open Scope string_scope.

(** ** Exceptions and results *)

Inductive exn : Type :=
| ReferenceError (name : string)
| TypeError (msg : string)
| AssertionError (msg : string)
| Error (msg : string)
| RangeError (msg : string).

Inductive result (A : Type) : Type :=
| Ok (a : A)
| Throw (e : exn).
Arguments Ok {A} a.
Arguments Throw {A} e.

Definition bind {A B} (m : result A) (k : A -> result B) : result B :=
  match m with
  | Ok a => k a
  | Throw e => Throw e
  end.

Notation "x <- m ;; k" := (bind m (fun x => k))
  (at level 61, m at next level, right associativity).
Notation "m ;;; k" := (bind m (fun _ => k))
  (at level 61, right associativity).

(** [try { body } catch (e) { handler(e) }] *)
Definition try_catch {A} (body : result A) (handler : exn -> result A) : result A :=
  match body with
  | Ok a => Ok a
  | Throw e => handler e
  end.

(** Reading an identifier that no declaration in scope binds. *)
Definition unbound {A} (name : string) : result A := Throw (ReferenceError name).

(** ** Strings *)

(** The double-quote character, written by its code. *)
Definition dquote : string := String (ascii_of_nat 34) EmptyString.

Fixpoint strip_prefix (p s : string) : option string :=
  match p with
  | EmptyString => Some s
  | String a p' =>
      match s with
      | EmptyString => None
      | String b s' => if Ascii.eqb a b then strip_prefix p' s' else None
      end
  end.

Definition startsWith (s p : string) : bool :=
  match strip_prefix p s with Some _ => true | None => false end.

(** [String.prototype.includes] *)
Fixpoint includes (s needle : string) : bool :=
  startsWith s needle
  || match s with
     | EmptyString => false
     | String _ s' => includes s' needle
     end.

(** [String.prototype.endsWith], used to state where a clause sits. *)
Fixpoint endsWith (s suffix : string) : bool :=
  String.eqb s suffix
  || match s with
     | EmptyString => false
     | String _ s' => endsWith s' suffix
     end.

(** [String.prototype.split] with a one-character separator. *)
Fixpoint split (sep : ascii) (s : string) : list string :=
  match s with
  | EmptyString => [EmptyString]
  | String c s' =>
      if Ascii.eqb c sep then EmptyString :: split sep s'
      else match split sep s' with
           | x :: xs => String c x :: xs
           | [] => [String c EmptyString]
           end
  end.

Fixpoint takeWhile (f : ascii -> bool) (s : string) : string :=
  match s with
  | EmptyString => EmptyString
  | String c s' => if f c then String c (takeWhile f s') else EmptyString
  end.

Fixpoint dropWhile (f : ascii -> bool) (s : string) : string :=
  match s with
  | EmptyString => EmptyString
  | String c s' => if f c then dropWhile f s' else s
  end.

Fixpoint take (n : nat) (s : string) : string :=
  match n, s with
  | S n', String c s' => String c (take n' s')
  | _, _ => EmptyString
  end.

Fixpoint drop (n : nat) (s : string) : string :=
  match n, s with
  | S n', String _ s' => drop n' s'
  | _, _ => s
  end.

Definition code_in (c : ascii) (codes : list nat) : bool :=
  existsb (Nat.eqb (nat_of_ascii c)) codes.

(** The regular-expression class [\s] (tab, LF, VT, FF, CR, space, NBSP). *)
Definition isWhiteSpace (c : ascii) : bool := code_in c [9; 10; 11; 12; 13; 32; 160]%nat.

(** The characters that [.] refuses (LF, CR). *)
Definition isLineTerminator (c : ascii) : bool := code_in c [10; 13]%nat.

Definition Z_to_string (z : Z) : string := NilZero.string_of_int (Z.to_int z).

(** ** JavaScript values *)

Inductive number : Type :=
| Int (z : Z)
| NaN.

#[warnings="-register-all"]
Inductive jsval : Type :=
| JUndefined
| JNull
| JBool (b : bool)
| JNum (n : number)
| JStr (s : string)
| JObj (props : list (string * jsval))
| JFun (src : string).

Definition typeof (v : jsval) : string :=
  match v with
  | JUndefined => "undefined"
  | JNull => "object"
  | JBool _ => "boolean"
  | JNum _ => "number"
  | JStr _ => "string"
  | JObj _ => "object"
  | JFun _ => "function"
  end.

(** ToBoolean *)
Definition truthy (v : jsval) : bool :=
  match v with
  | JUndefined | JNull => false
  | JBool b => b
  | JNum (Int z) => negb (z =? 0)%Z
  | JNum NaN => false
  | JStr s => negb (String.eqb s EmptyString)
  | JObj _ | JFun _ => true
  end.

(** [a || b] *)
Definition js_or (a b : jsval) : jsval := if truthy a then a else b.

Fixpoint lookup (k : string) (props : list (string * jsval)) : jsval :=
  match props with
  | [] => JUndefined
  | (k', v) :: rest => if String.eqb k k' then v else lookup k rest
  end.

(** [v.k]: a TypeError on undefined and null; on a primitive or a function
    none of the names the module reads exists, so the answer is undefined. *)
Definition get_prop (v : jsval) (k : string) : result jsval :=
  match v with
  | JUndefined | JNull => Throw (TypeError ("Cannot read properties of " ++ typeof v))
  | JObj props => Ok (lookup k props)
  | _ => Ok JUndefined
  end.

(** Digit value of a character in radix 10 or 16. *)
Definition digit_value (radix : Z) (c : ascii) : option Z :=
  let n := Z.of_nat (nat_of_ascii c) in
  let d := if (48 <=? n)%Z && (n <=? 57)%Z then Some (n - 48)%Z
           else if (97 <=? n)%Z && (n <=? 122)%Z then Some (n - 87)%Z
           else if (65 <=? n)%Z && (n <=? 90)%Z then Some (n - 55)%Z
           else None in
  match d with
  | Some v => if (v <? radix)%Z then Some v else None
  | None => None
  end.

Fixpoint parse_digits (radix : Z) (acc : option Z) (s : string) : option Z :=
  match s with
  | EmptyString => acc
  | String c s' =>
      match digit_value radix c with
      | Some d => parse_digits radix (Some (match acc with Some a => a * radix + d | None => d end)%Z) s'
      | None => acc
      end
  end.

(** [parseInt] on a string with no radix argument: leading blanks, a sign,
    an optional [0x] prefix, then the longest run of digits. *)
Definition parseInt_string (s : string) : number :=
  let s := dropWhile isWhiteSpace s in
  let '(sign, s) :=
    match s with
    | String "-" r => ((-1)%Z, r)
    | String "+" r => (1%Z, r)
    | _ => (1%Z, s)
    end in
  let '(radix, s) :=
    match s with
    | String "0" (String "x" r) => (16%Z, r)
    | String "0" (String "X" r) => (16%Z, r)
    | _ => (10%Z, s)
    end in
  match parse_digits radix None s with
  | Some m => Int (sign * m)
  | None => NaN
  end.

(** The integers every one of which is a number of its own: up to 2^53 in
    magnitude.  [Int z] stands for the number value of [z]: [z] itself in
    this range, the nearest number beyond it. *)
Definition safe_integer (z : Z) : bool := (Z.abs z <=? 9007199254740992)%Z.

(** The characters a number is printed with: digits, signs, the point, the
    exponent mark, and the letters of [Infinity]. *)
Definition numeric_char (c : ascii) : bool :=
  code_in c [43; 45; 46; 48; 49; 50; 51; 52; 53; 54; 55; 56; 57;
             101; 73; 110; 102; 105; 116; 121]%nat.

Fixpoint numeric_text (s : string) : bool :=
  match s with
  | EmptyString => true
  | String c s' => numeric_char c && numeric_text s'
  end.

(** The functions of the runtime that the module calls but does not define:
    Node's [path] module, the ToNumber conversion of a string, the text of
    a number beyond the safe integers (rounded to the nearest number, with
    an exponent from 10^21 on), of which only the alphabet is used, and
    the checks [socket.connect] makes at once on an options object. *)
Class Runtime : Type := {
  Path_normalize : string -> string;
  Path_join : list string -> string;
  StringToNumber : string -> number;
  number_text : Z -> string;
  number_text_numeric : forall z, numeric_text (number_text z) = true;
  connect_options : list (string * jsval) -> result unit
}.

Section Values.
Context `{Runtime}.

(** Number::toString: a safe integer prints its decimal digits. *)
Definition number_to_string (n : number) : string :=
  match n with
  | Int z => if safe_integer z then Z_to_string z else number_text z
  | NaN => "NaN"
  end.

(** ToString *)
Definition ToString (v : jsval) : string :=
  match v with
  | JUndefined => "undefined"
  | JNull => "null"
  | JBool true => "true"
  | JBool false => "false"
  | JNum n => number_to_string n
  | JStr s => s
  | JObj _ => "[object Object]"
  | JFun src => src
  end.

(** [parseInt(v)]: the argument goes through ToString and the text is
    read.  A safe integer prints its digits, which are read back
    unchanged; of a number beyond them the text of the runtime is read, so
    that of [1e+21] only the [1] is left. *)
Definition parseInt (v : jsval) : number :=
  match v with
  | JNum (Int z) => if safe_integer z then Int z else parseInt_string (number_text z)
  | JNum NaN => NaN
  | _ => parseInt_string (ToString v)
  end.

(** ToNumber *)
Definition ToNumber (v : jsval) : number :=
  match v with
  | JUndefined => NaN
  | JNull => Int 0
  | JBool true => Int 1
  | JBool false => Int 0
  | JNum n => n
  | _ => StringToNumber (ToString v)
  end.

(** [v > 0] *)
Definition gt0 (v : jsval) : bool :=
  match ToNumber v with
  | Int z => (0 <? z)%Z
  | NaN => false
  end.
End Values.

(** [Assert.ok(value, message)] *)
Definition Assert_ok (value : jsval) (message : string) : result unit :=
  if truthy value then Ok tt else Throw (AssertionError message).

(** [a && b] *)
Definition js_and (a b : jsval) : jsval := if truthy a then b else a.

(** ** The two regular expressions of [getVersion] *)

(** [/GStreamer\s+.+/] tried at the head of [s].  [\s+] is greedy and gives
    blanks back one at a time: [backtrack k r] lets it take [k] characters
    of [r], then [k-1], and so on down to one; [.+] then takes the longest
    run of characters that are not line terminators and needs one at least. *)
Fixpoint backtrack (k : nat) (r : string) : option string :=
  match k with
  | O => None
  | S k' =>
      match takeWhile (fun c => negb (isLineTerminator c)) (drop k r) with
      | EmptyString => backtrack k' r
      | body => Some ("GStreamer" ++ take k r ++ body)
      end
  end.

Definition regex_version_here (s : string) : option string :=
  match strip_prefix "GStreamer" s with
  | None => None
  | Some r => backtrack (String.length (takeWhile isWhiteSpace r)) r
  end.

(** The leftmost match of [/GStreamer\s+.+/] in [s]. *)
Fixpoint regex_version_first (s : string) : option string :=
  match regex_version_here s with
  | Some m => Some m
  | None =>
      match s with
      | EmptyString => None
      | String _ s' => regex_version_first s'
      end
  end.

(** [s.match(/GStreamer\s+.+/g)[0]]: [match] answers null when nothing
    matches, and indexing null raises. *)
Definition match_version_0 (s : string) : result string :=
  match regex_version_first s with
  | Some m => Ok m
  | None => Throw (TypeError "Cannot read properties of null")
  end.

(** [s.replace(/GStreamer\s+/, '')]: the leftmost match, blanks taken
    greedily, is dropped; a string without a match is returned as it is. *)
Fixpoint replace_version_prefix (s : string) : string :=
  let skip :=
    match s with
    | EmptyString => EmptyString
    | String c s' => String c (replace_version_prefix s')
    end in
  match strip_prefix "GStreamer" s with
  | Some (String c r) => if isWhiteSpace c then dropWhile isWhiteSpace r else skip
  | _ => skip
  end.

(** ** The host *)

Inductive listing : Type :=
| Listing1   (* lines 1-419 *)
| Listing2.  (* lines 420-833 *)

Record host : Type := {
  platform : string;                 (* OS.platform() *)
  arch : string;                     (* process.arch *)
  env : string -> option string;     (* process.env *)
  accessible : string -> bool;       (* FS.accessSync(p, FS.F_OK) returns *)
  run_sync : string -> list string -> result (option string);
    (* SpawnSync(file, args, {timeout: 1000}).stdout, decoded, for a string
       [file]: what the child wrote before it ended or was timed out, or
       nothing when there is no output buffer *)
  run_timed_out : string -> list string -> bool
    (* whether that child was killed by the timeout: the [error] and
       [signal] of the result tell it, and the module reads neither *)
}.

Definition env_val (h : host) (k : string) : jsval :=
  match env h k with
  | Some s => JStr s
  | None => JUndefined
  end.

Definition accessSync (h : host) (p : string) : result unit :=
  if accessible h p then Ok tt else Throw (Error "ENOENT: no such file or directory").

(** [SpawnSync(file, args, options).stdout]; a [file] that is not a string
    is refused with a TypeError before anything is run. *)
Definition SpawnSync (h : host) (file : jsval) (args : list string) : result (option string) :=
  match file with
  | JStr f => run_sync h f args
  | _ => Throw (TypeError "The file argument must be of type string")
  end.

Record child_process : Type := {
  spawn_file : string;
  spawn_args : list string
}.

(** [Spawn(file, args)] *)
Definition Spawn (file : jsval) (args : list string) : result child_process :=
  match file with
  | JStr f => Ok {| spawn_file := f; spawn_args := args |}
  | _ => Throw (TypeError "The file argument must be of type string")
  end.

(** [for (index = 0; index < xs.length; ++index) body] over a state. *)
Fixpoint for_each {S X : Type} (body : S -> X -> result S) (xs : list X) (s : S) : result S :=
  match xs with
  | [] => Ok s
  | x :: xs' => s' <- body s x ;; for_each body xs' s'
  end.

(** [s.split(sep)] on a value read from the environment. *)
Definition split_val (v : jsval) (sep : ascii) : result (list string) :=
  match v with
  | JStr s => Ok (split sep s)
  | _ => Throw (TypeError "Cannot read properties of undefined (reading 'split')")
  end.

(** ** class GstLaunch *)

Module GstLaunch.
Section WithRuntime.
Context `{Runtime}.

Record t : Type := {
  gst_launch_executable : string;
  gst_launch_versionarg : string
}.

Definition constructor : t :=
  {| gst_launch_executable := "gst-launch-1.0";
     gst_launch_versionarg := "--version" |}.

(** Lines 27-45. *)
Definition getPath1 (h : host) (this : t) : result jsval :=
  let detected_path := JUndefined in
  path_dirs <- split_val (env_val h "PATH") ":" ;;
  detected_path <-
    for_each (fun detected_path dir =>
      try_catch
        (let base := Path_normalize dir in
         let bin := Path_join [base; gst_launch_executable this] in
         accessSync h bin ;;;
         Ok (JStr bin))
        (fun e => Ok detected_path))
      path_dirs detected_path ;;
  Ok detected_path.

(** Lines 447-521.  In the two PATH loops the executable's name is read
    as a bare identifier [gst_launch_executable]. *)
Definition getPath2 (h : host) (this : t) : result jsval :=
  let detected_path := JUndefined in
  detected_path <-
    (if String.eqb (platform h) "win32" then
       let detected_path_x64 := env_val h "GSTREAMER_1_0_ROOT_X86_64" in
       let detected_path_x32 := env_val h "GSTREAMER_1_0_ROOT_X86" in
       let detected_path :=
         if truthy (js_or detected_path_x64 detected_path_x32) then
           if truthy (js_and detected_path_x64 detected_path_x32) then
             if String.eqb (arch h) "x64" then detected_path_x64
             else if String.eqb (arch h) "x32" then detected_path_x32
             else detected_path
           else js_or detected_path_x64 detected_path_x32
         else detected_path in
       if truthy detected_path then
         let detected_path :=
           Path_join [ToString detected_path; "bin"; gst_launch_executable this ++ ".exe"] in
         try_catch
           (accessSync h detected_path ;;; Ok (JStr detected_path))
           (fun e => Ok JUndefined)
       else
         path_dirs <- split_val (env_val h "PATH") ";" ;;
         for_each (fun detected_path dir =>
           try_catch
             (let base := Path_normalize dir in
              gst_launch_executable <- unbound "gst_launch_executable" ;;
              let bin := Path_join [base; gst_launch_executable ++ ".exe"] in
              accessSync h bin ;;;
              Ok (JStr bin))
             (fun e => Ok detected_path))
           path_dirs detected_path
     else if String.eqb (platform h) "linux" then
       path_dirs <- split_val (env_val h "PATH") ":" ;;
       for_each (fun detected_path dir =>
         try_catch
           (let base := Path_normalize dir in
            gst_launch_executable <- unbound "gst_launch_executable" ;;
            let bin := Path_join [base; gst_launch_executable] in
            accessSync h bin ;;;
            Ok (JStr bin))
           (fun e => Ok detected_path))
         path_dirs detected_path
     else if String.eqb (platform h) "darwin" then
       try_catch
         (let bin := "/usr/local/bin/gst-launch-1.0" in
          accessSync h bin ;;;
          Ok (JStr bin))
         (fun e => Ok detected_path)
     else Ok detected_path) ;;
  Ok detected_path.

Definition getPath (l : listing) (h : host) (this : t) : result jsval :=
  match l with
  | Listing1 => getPath1 h this
  | Listing2 => getPath2 h this
  end.

(** Lines 52-74 and 528-551. *)
Definition getVersion (l : listing) (h : host) (this : t) : result jsval :=
  let version_str := JUndefined in
  version_str <-
    try_catch
      (gst_launch_path <- getPath l h this ;;
       Assert_ok (JStr (typeof gst_launch_path)) "string" ;;;
       output <- SpawnSync h gst_launch_path [gst_launch_versionarg this] ;;
       match output with
       | Some text =>
           if includes text "GStreamer" then
             m <- match_version_0 text ;;
             Ok (JStr (replace_version_prefix m))
           else Ok version_str
       | None => Ok version_str
       end)
      (fun ex => Ok JUndefined) ;;
  Ok version_str.

(** Lines 80-82 and 557-560: [this.getVersion() !== undefined]. *)
Definition isAvailable (l : listing) (h : host) (this : t) : result bool :=
  v <- getVersion l h this ;;
  Ok (match v with JUndefined => false | _ => true end).

(** Lines 92-100 and 570-578. *)
Definition spawnPipeline (l : listing) (h : host) (this : t) (pipeline : string)
  : result child_process :=
  Assert_ok (JStr (typeof (JStr pipeline))) "string" ;;;
  available <- isAvailable l h this ;;
  Assert_ok (JBool available) "gst-launch is not available." ;;;
  gst_launch_path <- getPath l h this ;;
  Assert_ok (JStr (typeof gst_launch_path)) "string" ;;;
  Spawn gst_launch_path (split " " pipeline).
End WithRuntime.
End GstLaunch.

(** ** class GstLiveCamServer *)

Module GstLiveCamServer.
Section WithRuntime.
Context `{Runtime}.

Record t : Type := {
  fake : jsval;
  width : jsval;
  height : jsval;
  framerate : jsval;
  grayscale : jsval;
  deviceIndex : jsval;
  gst_multipart_boundary : string;
  gst_video_src : string
}.

(** Lines 108-145 and 588-628; the listings differ in the live-capture
    source only. *)
Definition constructor (l : listing) (config : jsval) : result t :=
  let config := js_or config (JObj []) in
  Assert_ok (JStr (typeof config)) "object" ;;;
  fake <- get_prop config "fake" ;;
  let fake := js_or fake (JBool false) in
  width <- get_prop config "width" ;;
  let width := js_or width (JNum (Int 800)) in
  height <- get_prop config "height" ;;
  let height := js_or height (JNum (Int 600)) in
  framerate <- get_prop config "framerate" ;;
  let framerate := js_or framerate (JNum (Int 30)) in
  grayscale <- get_prop config "grayscale" ;;
  let grayscale := js_or grayscale (JBool false) in
  deviceIndex <- get_prop config "deviceIndex" ;;
  let deviceIndex := js_or deviceIndex (JNum (Int (-1))) in
  Assert_ok (JStr (typeof fake)) "boolean" ;;;
  Assert_ok (JStr (typeof width)) "number" ;;;
  Assert_ok (JStr (typeof height)) "number" ;;;
  Assert_ok (JStr (typeof framerate)) "number" ;;;
  Assert_ok (JStr (typeof grayscale)) "boolean" ;;;
  let gst_multipart_boundary := "--videoboundary" in
  let gst_video_src := "" in
  let gst_video_src :=
    if negb (truthy fake) then
      match l with
      | Listing1 => "v4l2src ! decodebin"
      | Listing2 => "-v ksvideosrc do-stats=TRUE"
      end
    else "videotestsrc" in
  let gst_video_src :=
    if gt0 width || gt0 height then
      gst_video_src ++ " ! videoscale ! video/x-raw,width=" ++ number_to_string (parseInt width)
        ++ ",height=" ++ number_to_string (parseInt height)
    else gst_video_src in
  let gst_video_src :=
    if gt0 framerate then
      gst_video_src ++ " ! videorate ! video/x-raw,framerate="
        ++ number_to_string (parseInt framerate) ++ "/1"
    else gst_video_src in
  let gst_video_src :=
    if truthy grayscale then
      gst_video_src ++ " ! videobalance saturation=0.0 ! videoconvert"
    else gst_video_src in
  Ok {| fake := fake; width := width; height := height; framerate := framerate;
        grayscale := grayscale; deviceIndex := deviceIndex;
        gst_multipart_boundary := gst_multipart_boundary;
        gst_video_src := gst_video_src |}.

(** The constant [cam_pipeline] of [start], lines 157-158 and 640-641. *)
Definition cam_pipeline (this : t) (tcp_addr tcp_port : jsval) : string :=
  gst_video_src this ++ " ! jpegenc ! multipartmux  boundary=" ++ dquote
    ++ gst_multipart_boundary this ++ dquote ++ " ! tcpserversink host=" ++ ToString tcp_addr
    ++ " port=" ++ ToString tcp_port.

(** Lines 153-171 and 636-656.  The three logged lines call [getPath] and
    [getVersion] again before the pipeline is spawned. *)
Definition start (l : listing) (h : host) (this : t) (tcp_addr tcp_port : jsval)
  : result child_process :=
  Assert_ok (JStr (typeof tcp_addr)) "string" ;;;
  Assert_ok (JStr (typeof tcp_port)) "number" ;;;
  let cam_pipeline := cam_pipeline this tcp_addr tcp_port in
  let gst_launch := GstLaunch.constructor in
  available <- GstLaunch.isAvailable l h gst_launch ;;
  if available then
    GstLaunch.getPath l h gst_launch ;;;
    GstLaunch.getVersion l h gst_launch ;;;
    GstLaunch.spawnPipeline l h gst_launch cam_pipeline
  else Throw (Error "GstLaunch not found.").
End WithRuntime.
End GstLiveCamServer.

(** ** Base64 and the stream decoder *)

Definition base64_alphabet : string :=
  "ABCDEFGHIJKLMNOPQRSTUVWXYZabcdefghijklmnopqrstuvwxyz0123456789+/".

Definition sextet (n : N) : string :=
  match String.get (N.to_nat (N.land n 63)) base64_alphabet with
  | Some c => String c EmptyString
  | None => EmptyString
  end.

Definition group (a b c : Byte.byte) : N :=
  N.lor (N.shiftl (Byte.to_N a) 16) (N.lor (N.shiftl (Byte.to_N b) 8) (Byte.to_N c)).

(** [Buffer.prototype.toString('base64')] *)
Fixpoint base64 (bytes : list Byte.byte) : string :=
  match bytes with
  | a :: b :: c :: rest =>
      let n := group a b c in
      sextet (N.shiftr n 18) ++ sextet (N.shiftr n 12) ++ sextet (N.shiftr n 6) ++ sextet n
        ++ base64 rest
  | [a; b] =>
      let n := group a b Byte.x00 in
      sextet (N.shiftr n 18) ++ sextet (N.shiftr n 12) ++ sextet (N.shiftr n 6) ++ "="
  | [a] =>
      let n := group a Byte.x00 Byte.x00 in
      sextet (N.shiftr n 18) ++ sextet (N.shiftr n 12) ++ "=="
  | [] => EmptyString
  end.

(** What [part.setEncoding('base64')] installs on the part stream: the
    decoder holds back the bytes (two at most) that do not yet fill a group
    of three, and encodes the rest of what it has been given. *)
Definition decoder_write (held chunk : list Byte.byte) : string * list Byte.byte :=
  let all := (held ++ chunk)%list in
  let n := (List.length all mod 3)%nat in
  (base64 (firstn (List.length all - n) all), skipn (List.length all - n) all).

Definition decoder_end (held : list Byte.byte) : string := base64 held.

(** ** class SocketCamWrapper *)

Module SocketCamWrapper.

(** The push-channel server made by [SocketIO.listen]. *)
Record push_server : Type := {
  listen_port : jsval;
  listen_addr : jsval
}.

Record t : Type := {
  gst_multipart_boundary : string;
  lastImage : string;
  io : option push_server
}.

(** Lines 182-185 and 667-670. *)
Definition constructor : t :=
  {| gst_multipart_boundary := "--videoboundary"; lastImage := ""; io := None |}.

(** Lines 187-189 and 672-674. *)
Definition getLastImage (this : t) : string := lastImage this.

Section Connecting.
Context `{Runtime}.

(** A string that [socket.connect] takes for the path of a pipe and not
    for a port: one whose number is not at least 0. *)
Definition is_pipe_name (s : string) : bool :=
  match StringToNumber s with
  | Int z => (z <? 0)%Z
  | NaN => true
  end.

Definition port_number_ok (n : number) : bool :=
  match n with
  | Int z => (0 <=? z)%Z && (z <=? 65535)%Z
  | NaN => false
  end.

(** The check of the port that [socket.connect] makes before anything is
    looked up: a number or a string, not blank, an integer from 0 to
    65535.  Node's own errors are named by their code. *)
Definition validate_port (port : jsval) : result unit :=
  match port with
  | JNum n =>
      if port_number_ok n then Ok tt else Throw (RangeError "ERR_SOCKET_BAD_PORT")
  | JStr s =>
      if String.eqb (dropWhile isWhiteSpace s) EmptyString
      then Throw (RangeError "ERR_SOCKET_BAD_PORT")
      else if port_number_ok (StringToNumber s) then Ok tt
      else Throw (RangeError "ERR_SOCKET_BAD_PORT")
  | _ => Throw (TypeError "ERR_INVALID_ARG_TYPE")
  end.

(** What [socket.connect(port, host, callback)] does before it returns: an
    object in the place of the port is an options object, a pipe name is a
    path, which is not checked further, and anything else is taken for the
    port and checked.  The host is only stored.  The connection itself is
    made later, and reports through events. *)
Definition connect (port host : jsval) : result unit :=
  match port with
  | JObj options => connect_options options
  | JStr s => if is_pipe_name s then Ok tt else validate_port port
  | JUndefined => Throw (TypeError "ERR_MISSING_ARGS")
  | _ => validate_port port
  end.

(** Lines 195-203 and 680-688: the checks, the socket and the call of
    [connect]; the rest of [wrap] is the connect callback below. *)
Definition wrap (this : t) (gst_tcp_addr gst_tcp_port broadcast_tcp_addr broadcast_tcp_port : jsval)
  : result t :=
  Assert_ok (JStr (typeof gst_tcp_addr)) "string" ;;;
  Assert_ok (JStr (typeof gst_tcp_port)) "number" ;;;
  Assert_ok (JStr (typeof broadcast_tcp_addr)) "string" ;;;
  Assert_ok (JStr (typeof broadcast_tcp_port)) "number" ;;;
  connect gst_tcp_port gst_tcp_addr ;;;
  Ok this.
End Connecting.

(** Lines 204-210 and 690-707: on connect [this.io] is set. *)
Definition on_connect (this : t) (broadcast_tcp_addr broadcast_tcp_port : jsval) : t :=
  {| gst_multipart_boundary := gst_multipart_boundary this;
     lastImage := lastImage this;
     io := Some {| listen_port := broadcast_tcp_port; listen_addr := broadcast_tcp_addr |} |}.

(** What the parser and the part streams deliver to the handlers. *)
Inductive dicer_event : Type :=
| Part                              (* 'part' *)
| Push (chunk : list Byte.byte)     (* the parser pushes body bytes into the part *)
| PartEnd                           (* the part stream ends *)
| Finish                            (* 'finish' *)
| Close.                            (* the socket's 'close' *)

(** The closure of one 'part' callback, with the decoder of its stream. *)
Record part : Type := {
  frameEncoded : string;
  held : list Byte.byte
}.

Record relay : Type := {
  this : t;
  current : option part;
  emitted : list (string * string)   (* io.sockets.emit(event, payload), oldest first *)
}.

(** Lines 216-218 and 713-715; a decoder that has nothing to say raises
    no 'data' event. *)
Definition on_data (p : part) (data : string) : part :=
  if String.eqb data EmptyString then p
  else {| frameEncoded := frameEncoded p ++ data; held := held p |}.

(** Lines 219-222 (the server is read as a bare identifier [io]) and
    716-719 (it is read as [this.io]). *)
Definition on_end (l : listing) (r : relay) (p : part) : result relay :=
  match l with
  | Listing1 =>
      io <- @unbound (option push_server) "io" ;;
      match io with
      | Some _ =>
          Ok {| this := {| gst_multipart_boundary := gst_multipart_boundary (this r);
                           lastImage := frameEncoded p; io := SocketCamWrapper.io (this r) |};
                current := None;
                emitted := (emitted r ++ [("image", frameEncoded p)])%list |}
      | None => Throw (TypeError "Cannot read properties of undefined (reading 'sockets')")
      end
  | Listing2 =>
      match io (this r) with
      | Some _ =>
          Ok {| this := {| gst_multipart_boundary := gst_multipart_boundary (this r);
                           lastImage := frameEncoded p; io := io (this r) |};
                current := None;
                emitted := (emitted r ++ [("image", frameEncoded p)])%list |}
      | None => Throw (TypeError "Cannot read properties of undefined (reading 'sockets')")
      end
  end.

Definition step (l : listing) (r : relay) (ev : dicer_event) : result relay :=
  match ev with
  | Part =>
      Ok {| this := this r;
            current := Some {| frameEncoded := ""; held := [] |};
            emitted := emitted r |}
  | Push chunk =>
      match current r with
      | Some p =>
          let '(data, held') := decoder_write (held p) chunk in
          let p := {| frameEncoded := frameEncoded p; held := held' |} in
          Ok {| this := this r; current := Some (on_data p data); emitted := emitted r |}
      | None => Ok r
      end
  | PartEnd =>
      match current r with
      | Some p =>
          let p := on_data {| frameEncoded := frameEncoded p; held := [] |} (decoder_end (held p)) in
          on_end l r p
      | None => Ok r
      end
  | Finish | Close => Ok r
  end.

(** The handlers run event after event; an exception that leaves a
    handler is caught by nobody and ends the process. *)
Fixpoint run (l : listing) (r : relay) (evs : list dicer_event) : relay * option exn :=
  match evs with
  | [] => (r, None)
  | ev :: evs' =>
      match step l r ev with
      | Ok r' => run l r' evs'
      | Throw e => (r, Some e)
      end
  end.

(** The relay right after the connect callback has run. *)
Definition connected (broadcast_tcp_addr broadcast_tcp_port : jsval) : relay :=
  {| this := on_connect constructor broadcast_tcp_addr broadcast_tcp_port;
     current := None; emitted := [] |}.

(** The events of one part whose body arrives in the given chunks. *)
Definition part_events (chunks : list (list Byte.byte)) : list dicer_event :=
  (Part :: map Push chunks ++ [PartEnd])%list.
End SocketCamWrapper.

(** ** class LiveCam *)

Module LiveCam.
Section WithRuntime.
Context `{Runtime}.

Record t : Type := {
  gst_tcp_addr : jsval;
  gst_tcp_port : jsval;
  ui_addr : jsval;
  ui_port : jsval;
  broadcast_addr : jsval;
  broadcast_port : jsval;
  start : jsval;
  webcam : jsval;
  gst_cam_wrap : option SocketCamWrapper.t;
  gst_cam_server : option GstLiveCamServer.t;
  gst_cam_process : option child_process
}.

(** [if (v) Assert.ok(typeof(v), expected)] *)
Definition check (v : jsval) (expected : string) : result unit :=
  if truthy v then Assert_ok (JStr (typeof v)) expected else Ok tt.

(** Lines 332-376 and 755-799. *)
Definition constructor (l : listing) (h : host) (config : jsval) : result t :=
  let config := js_or config (JObj []) in
  Assert_ok (JStr (typeof config)) "object" ;;;
  gst_tcp_addr <- get_prop config "gst_addr" ;;
  let gst_tcp_addr := js_or gst_tcp_addr (JStr "127.0.0.1") in
  gst_tcp_port <- get_prop config "gst_port" ;;
  let gst_tcp_port := js_or gst_tcp_port (JNum (Int 10000)) in
  ui_addr <- get_prop config "ui_addr" ;;
  let ui_addr := js_or ui_addr (JStr "127.0.0.1") in
  ui_port <- get_prop config "ui_port" ;;
  let ui_port := js_or ui_port (JNum (Int 11000)) in
  broadcast_addr <- get_prop config "broadcast_addr" ;;
  let broadcast_addr := js_or broadcast_addr (JStr "127.0.0.1") in
  broadcast_port <- get_prop config "broadcast_port" ;;
  let broadcast_port := js_or broadcast_port (JNum (Int 12000)) in
  start <- get_prop config "start" ;;
  webcam <- get_prop config "webcam" ;;
  let webcam := js_or webcam (JObj []) in
  check start "function" ;;;
  check broadcast_port "number" ;;;
  check broadcast_addr "string" ;;;
  check ui_port "number" ;;;
  check ui_addr "string" ;;;
  check gst_tcp_port "number" ;;;
  check gst_tcp_addr "string" ;;;
  check webcam "object" ;;;
  available <- GstLaunch.isAvailable l h GstLaunch.constructor ;;
  if negb available then Throw (Error "Unable to broadcast.")
  else
    Ok {| gst_tcp_addr := gst_tcp_addr; gst_tcp_port := gst_tcp_port;
          ui_addr := ui_addr; ui_port := ui_port;
          broadcast_addr := broadcast_addr; broadcast_port := broadcast_port;
          start := start; webcam := webcam;
          gst_cam_wrap := None; gst_cam_server := None; gst_cam_process := None |}.

(** Lines 378-382 and 801-805: the part of [broadcast] that runs at once. *)
Definition broadcast (l : listing) (h : host) (this : t) : result t :=
  let gst_cam_wrap := SocketCamWrapper.constructor in
  gst_cam_server <- GstLiveCamServer.constructor l (webcam this) ;;
  gst_cam_process <-
    GstLiveCamServer.start l h gst_cam_server (gst_tcp_addr this) (gst_tcp_port this) ;;
  Ok {| gst_tcp_addr := gst_tcp_addr this; gst_tcp_port := gst_tcp_port this;
        ui_addr := ui_addr this; ui_port := ui_port this;
        broadcast_addr := broadcast_addr this; broadcast_port := broadcast_port this;
        start := start this; webcam := webcam this;
        gst_cam_wrap := Some gst_cam_wrap;
        gst_cam_server := Some gst_cam_server;
        gst_cam_process := Some gst_cam_process |}.

(** What the standard-output handler does to the outside. *)
Inductive action : Type :=
| Wrapped (gst_tcp_addr gst_tcp_port broadcast_addr broadcast_port : jsval)
| Called (f : jsval).   (* a call with no argument *)

(** [callee()], where [callee] is the text of the expression called and
    [f] its value. *)
Definition call0 (callee : string) (f : jsval) : result action :=
  match f with
  | JFun _ => Ok (Called f)
  | _ => Throw (TypeError (callee ++ " is not a function"))
  end.

(** Lines 384-395 (the callback is read as a bare identifier [start]) and
    807-816 (it is read as [this.start]).  The answer is what the handler
    did, in order, and how it ended. *)
Definition on_stdout_data (l : listing) (this : t) (data : string) : list action * result unit :=
  if gt0 (JBool (includes data "Setting pipeline to PLAYING")) then
    match gst_cam_wrap this with
    | None => ([], Throw (TypeError "Cannot read properties of null (reading 'wrap')"))
    | Some w =>
        match SocketCamWrapper.wrap w (gst_tcp_addr this) (gst_tcp_port this)
                (broadcast_addr this) (broadcast_port this) with
        | Throw e => ([], Throw e)
        | Ok _ =>
            let done := [Wrapped (gst_tcp_addr this) (gst_tcp_port this)
                           (broadcast_addr this) (broadcast_port this)] in
            match (match l with
                   | Listing1 => unbound "start"
                   | Listing2 => Ok (start this)
                   end) with
            | Throw e => (done, Throw e)
            | Ok start =>
                if truthy start then
                  match call0 (match l with
                               | Listing1 => "start"
                               | Listing2 => "this.start"
                               end) start with
                  | Ok a => ((done ++ [a])%list, Ok tt)
                  | Throw e => (done, Throw e)
                  end
                else (done, Ok tt)
            end
        end
    end
  else ([], Ok tt).

(** The chunks of the child's standard output, handled one by one; an
    exception that leaves the handler ends the process. *)
Fixpoint run_stdout (l : listing) (this : t) (chunks : list string) : list action * option exn :=
  match chunks with
  | [] => ([], None)
  | data :: rest =>
      match on_stdout_data l this data with
      | (done, Ok _) =>
          let '(later, e) := run_stdout l this rest in ((done ++ later)%list, e)
      | (done, Throw e) => (done, Some e)
      end
  end.

(** Lines 411-416 (the first listing only). *)
Definition getLastImage (this : t) : string :=
  match gst_cam_wrap this with
  | None => ""
  | Some w => SocketCamWrapper.getLastImage w
  end.
End WithRuntime.
End LiveCam.

(** ** Concrete runtimes and hosts, for running the model *)

Definition LF : string := String (ascii_of_nat 10) EmptyString.

Lemma uint_numeric (d : Decimal.uint) : numeric_text (NilEmpty.string_of_uint d) = true.
Proof. induction d; simpl; auto. Qed.

Lemma Z_to_string_numeric (z : Z) : numeric_text (Z_to_string z) = true.
Proof.
  unfold Z_to_string, NilZero.string_of_int, NilZero.string_of_uint.
  destruct (Z.to_int z) as [d|d]; destruct d; simpl; auto using uint_numeric.
Qed.

(** A runtime that is right on the inputs used below: directory names
    already in normal form, joined with a slash, strings of decimal
    digits, safe integers only, and no options object given to a socket. *)
#[export] Instance sample_runtime : Runtime := {
  Path_normalize := fun dir => dir;
  Path_join := fun parts => String.concat "/" parts;
  StringToNumber := parseInt_string;
  number_text := Z_to_string;
  number_text_numeric := Z_to_string_numeric;
  connect_options := fun options => Ok tt
}.

Definition version_banner : string :=
  "gst-launch-1.0 version 1.20.3" ++ LF ++ "GStreamer 1.20.3" ++ LF
    ++ "https://launchpad.net/distros/ubuntu/+source/gstreamer1.0" ++ LF.

(** A Linux machine with the executable in two of three PATH directories. *)
Definition linux_host : host := {|
  platform := "linux";
  arch := "x64";
  env := fun k => if String.eqb k "PATH" then Some "/usr/local/bin:/usr/bin:/opt/gst/bin" else None;
  accessible := fun p => String.eqb p "/usr/local/bin/gst-launch-1.0"
                         || String.eqb p "/opt/gst/bin/gst-launch-1.0";
  run_sync := fun f args =>
    if String.eqb f "/usr/local/bin/gst-launch-1.0" || String.eqb f "/opt/gst/bin/gst-launch-1.0"
    then Ok (Some version_banner) else Ok None;
  run_timed_out := fun f args => false
|}.

(** A Linux machine without the executable. *)
Definition bare_host : host := {|
  platform := "linux";
  arch := "x64";
  env := fun k => if String.eqb k "PATH" then Some "/usr/local/bin:/usr/bin" else None;
  accessible := fun p => false;
  run_sync := fun f args => Ok None;
  run_timed_out := fun f args => false
|}.

(** A Mac with the executable at its well-known place. *)
Definition darwin_host : host := {|
  platform := "darwin";
  arch := "arm64";
  env := fun k => if String.eqb k "PATH" then Some "/usr/local/bin:/usr/bin" else None;
  accessible := fun p => String.eqb p "/usr/local/bin/gst-launch-1.0";
  run_sync := fun f args =>
    if String.eqb f "/usr/local/bin/gst-launch-1.0" then Ok (Some version_banner) else Ok None;
  run_timed_out := fun f args => false
|}.

(** ** Vocabulary for the statements *)

(** The property [k] of a configuration as the constructors see it after
    [config = config || {}]. *)
Definition field (config : jsval) (k : string) : jsval :=
  match config with
  | JObj props => lookup k props
  | _ => JUndefined
  end.

(** The configuration [{...config, k: v}]. *)
Definition set_prop (k : string) (v : jsval) (config : jsval) : jsval :=
  JObj ((k, v) :: match config with JObj props => props | _ => [] end).

Section Clauses.
Context `{Runtime}.

(** The text each conditional of the constructor contributes. *)
Definition source_clause (l : listing) (fake : jsval) : string :=
  if negb (truthy fake) then
    match l with
    | Listing1 => "v4l2src ! decodebin"
    | Listing2 => "-v ksvideosrc do-stats=TRUE"
    end
  else "videotestsrc".

Definition scale_clause (width height : jsval) : string :=
  if gt0 width || gt0 height then
    " ! videoscale ! video/x-raw,width=" ++ number_to_string (parseInt width)
      ++ ",height=" ++ number_to_string (parseInt height)
  else "".

Definition rate_clause (framerate : jsval) : string :=
  if gt0 framerate then
    " ! videorate ! video/x-raw,framerate=" ++ number_to_string (parseInt framerate) ++ "/1"
  else "".

Definition gray_clause (grayscale : jsval) : string :=
  if truthy grayscale then " ! videobalance saturation=0.0 ! videoconvert" else "".

Definition sink_clause (tcp_addr tcp_port : jsval) : string :=
  " ! jpegenc ! multipartmux  boundary=" ++ dquote ++ "--videoboundary" ++ dquote
    ++ " ! tcpserversink host=" ++ ToString tcp_addr ++ " port=" ++ ToString tcp_port.

(** The command string that [start] builds for a server made from
    [config]. *)
Definition command (l : listing) (config tcp_addr tcp_port : jsval) : result string :=
  s <- GstLiveCamServer.constructor l config ;;
  Ok (GstLiveCamServer.cam_pipeline s tcp_addr tcp_port).

(** [new GstLiveCamServer(config).start(tcp_addr, tcp_port)] *)
Definition launch (l : listing) (h : host) (config tcp_addr tcp_port : jsval)
  : result child_process :=
  s <- GstLiveCamServer.constructor l config ;;
  GstLiveCamServer.start l h s tcp_addr tcp_port.
End Clauses.

Definition is_number (v : jsval) : Prop := exists n, v = JNum n.

Definition absent_or_number (v : jsval) : Prop := v = JUndefined \/ is_number v.

Definition negative (v : jsval) : Prop := exists z, v = JNum (Int z) /\ (z < 0)%Z.

(** The configuration of the concrete scenario. *)
Definition scenario_config : jsval :=
  JObj [("fake", JBool true); ("width", JNum (Int 640)); ("height", JNum (Int 480));
        ("framerate", JNum (Int 15)); ("grayscale", JBool false)].

(** A configuration with a string width and a number grayscale flag, and an
    orchestrator configuration with a start callback that is no function. *)
Definition mistyped_webcam : jsval :=
  JObj [("width", JStr "640"); ("grayscale", JNum (Int 1))].

Definition mistyped_config : jsval :=
  JObj [("start", JStr "go"); ("gst_port", JStr "10000"); ("webcam", mistyped_webcam)].

(** An orchestrator configuration with a start callback, and what the
    child writes as it goes through its states. *)
Definition ready_config : jsval :=
  JObj [("start", JFun "() => console.log('streaming')")].

Definition paused_chunk : string := "Setting pipeline to PAUSED ..." ++ LF.

Definition playing_chunk : string :=
  "Pipeline is PREROLLED ..." ++ LF ++ "Setting pipeline to PLAYING ..." ++ LF.

(** A configuration with zero width and framerate and a negative height. *)
Definition zero_config : jsval :=
  JObj [("width", JNum (Int 0)); ("height", JNum (Int (-1))); ("framerate", JNum (Int 0))].

(** [new LiveCam(config).broadcast()], up to the registration of the
    handlers. *)
Definition broadcasting `{Runtime} (l : listing) (h : host) (config : jsval) : result LiveCam.t :=
  o <- LiveCam.constructor l h config ;;
  LiveCam.broadcast l h o.

Section Vocabulary.
Context `{Runtime}.

(** One round of the PATH loop of the first listing. *)
Definition probe1 (h : host) (this : GstLaunch.t) (detected_path : jsval) (dir : string)
  : result jsval :=
  try_catch
    (let base := Path_normalize dir in
     let bin := Path_join [base; GstLaunch.gst_launch_executable this] in
     accessSync h bin ;;;
     Ok (JStr bin))
    (fun e => Ok detected_path).

(** The candidate the loop builds for a PATH entry. *)
Definition candidate (this : GstLaunch.t) (dir : string) : string :=
  Path_join [Path_normalize dir; GstLaunch.gst_launch_executable this].

(** The output of the version query matches and [tok] is the token
    extracted from it. *)
Definition version_output_matches (l : listing) (h : host) (this : GstLaunch.t) (tok : string)
  : Prop :=
  exists path text m,
    GstLaunch.getPath l h this = Ok (JStr path) /\
    run_sync h path [GstLaunch.gst_launch_versionarg this] = Ok (Some text) /\
    includes text "GStreamer" = true /\
    regex_version_first text = Some m /\
    tok = replace_version_prefix m.

(** The ways the version query can fail. *)
Inductive version_query_failure (l : listing) (h : host) (this : GstLaunch.t) : Prop :=
| path_search_raises (e : exn) :
    GstLaunch.getPath l h this = Throw e -> version_query_failure l h this
| executable_absent (v : jsval) :
    GstLaunch.getPath l h this = Ok v -> (forall path, v <> JStr path) ->
    version_query_failure l h this
| subprocess_raises (path : string) (e : exn) :
    GstLaunch.getPath l h this = Ok (JStr path) ->
    run_sync h path [GstLaunch.gst_launch_versionarg this] = Throw e ->
    version_query_failure l h this
| output_missing (path : string) :
    GstLaunch.getPath l h this = Ok (JStr path) ->
    run_sync h path [GstLaunch.gst_launch_versionarg this] = Ok None ->
    version_query_failure l h this
| output_foreign (path text : string) :
    GstLaunch.getPath l h this = Ok (JStr path) ->
    run_sync h path [GstLaunch.gst_launch_versionarg this] = Ok (Some text) ->
    includes text "GStreamer" = false ->
    version_query_failure l h this
| extraction_raises (path text : string) :
    GstLaunch.getPath l h this = Ok (JStr path) ->
    run_sync h path [GstLaunch.gst_launch_versionarg this] = Ok (Some text) ->
    includes text "GStreamer" = true ->
    regex_version_first text = None ->
    version_query_failure l h this.

(** What the handler of the second listing does with one chunk. *)
Definition ready_actions (this : LiveCam.t) (data : string) : list LiveCam.action :=
  if includes data "Setting pipeline to PLAYING" then
    LiveCam.Wrapped (LiveCam.gst_tcp_addr this) (LiveCam.gst_tcp_port this)
      (LiveCam.broadcast_addr this) (LiveCam.broadcast_port this)
      :: (if truthy (LiveCam.start this) then [LiveCam.Called (LiveCam.start this)] else [])
  else [].

End Vocabulary.

(** What the closure of a part holds once [bytes] have been pushed:
    the encoding of a whole number of groups, the rest held back. *)
Definition holds (p : SocketCamWrapper.part) (bytes : list Byte.byte) : Prop :=
  exists whole,
    SocketCamWrapper.frameEncoded p = base64 whole /\ (List.length whole mod 3 = 0)%nat /\
    (whole ++ SocketCamWrapper.held p)%list = bytes.

(** Characters of a string, to tell clauses apart by a letter. *)
Fixpoint has_char (c : ascii) (s : string) : bool :=
  match s with
  | EmptyString => false
  | String x s' => Ascii.eqb c x || has_char c s'
  end.

(** The PATH entry the scan of the first listing settles on: the last one
    whose candidate exists. *)
Definition last_match `{Runtime} (h : host) (this : GstLaunch.t) (dirs : list string)
  : option string :=
  find (fun dir => accessible h (candidate this dir)) (rev dirs).

(** A character-wise test, for line terminators and blanks in a token. *)
Fixpoint all_chars (f : ascii -> bool) (s : string) : bool :=
  match s with
  | EmptyString => true
  | String c s' => f c && all_chars f s'
  end.

(** The first character of a non-empty string passes [f]. *)
Definition head_is (f : ascii -> bool) (s : string) : bool :=
  match s with
  | EmptyString => false
  | String c _ => f c
  end.

(** The installation root the win32 branch of the second listing takes
    from the environment (lines 455-468); undefined when it takes none. *)
Definition win32_root (h : host) : jsval :=
  let detected_path_x64 := env_val h "GSTREAMER_1_0_ROOT_X86_64" in
  let detected_path_x32 := env_val h "GSTREAMER_1_0_ROOT_X86" in
  if truthy (js_or detected_path_x64 detected_path_x32) then
    if truthy (js_and detected_path_x64 detected_path_x32) then
      if String.eqb (arch h) "x64" then detected_path_x64
      else if String.eqb (arch h) "x32" then detected_path_x32
      else JUndefined
    else js_or detected_path_x64 detected_path_x32
  else JUndefined.

(** What a PATH scan of the second listing answers: the split of an unset
    PATH raises, and otherwise nothing is found. *)
Definition blind_scan (h : host) : result jsval :=
  match env h "PATH" with
  | Some _ => Ok JUndefined
  | None => Throw (TypeError "Cannot read properties of undefined (reading 'split')")
  end.

(** A machine whose environment has no PATH. *)
Definition pathless_host : host := {|
  platform := "linux";
  arch := "x64";
  env := fun k => None;
  accessible := fun p => true;
  run_sync := fun f args => Ok (Some version_banner);
  run_timed_out := fun f args => false
|}.

(** Telling the actions of the standard-output handler apart, and the
    chunks that hold the marker. *)
Definition is_wrapped (a : LiveCam.action) : bool :=
  match a with
  | LiveCam.Wrapped _ _ _ _ => true
  | LiveCam.Called _ => false
  end.

Definition is_called (a : LiveCam.action) : bool :=
  match a with
  | LiveCam.Wrapped _ _ _ _ => false
  | LiveCam.Called _ => true
  end.

Definition holds_marker (data : string) : bool :=
  includes data "Setting pipeline to PLAYING".

(** A 32-bit Windows machine with both installation roots set and the
    executable under each of them and on PATH. *)
Definition win32_host : host := {|
  platform := "win32";
  arch := "ia32";
  env := fun k =>
    if String.eqb k "GSTREAMER_1_0_ROOT_X86_64" then Some "C:/gstreamer/1.0/x86_64"
    else if String.eqb k "GSTREAMER_1_0_ROOT_X86" then Some "C:/gstreamer/1.0/x86"
    else if String.eqb k "PATH" then Some "C:/gstreamer/1.0/x86/bin;C:/Windows"
    else None;
  accessible := fun p => true;
  run_sync := fun f args => Ok (Some version_banner);
  run_timed_out := fun f args => false
|}.

(** What the relay has published last: the payload of the newest event,
    the empty string when there is none. *)
Definition last_payload (events : list (string * string)) : string :=
  last (map snd events) "".

(** The event the relay publishes for a part whose body arrives in the
    given chunks. *)
Definition image_event (chunks : list (list Byte.byte)) : string * string :=
  ("image", base64 (List.concat chunks)).

(** What every handler of the second listing keeps: the server is set,
    the last image is the payload published last, and every event is
    an "image" event. *)
Definition relay_inv (r : SocketCamWrapper.relay) : Prop :=
  (exists srv, SocketCamWrapper.io (SocketCamWrapper.this r) = Some srv) /\
  SocketCamWrapper.lastImage (SocketCamWrapper.this r) = last_payload (SocketCamWrapper.emitted r) /\
  Forall (fun ev => fst ev = "image") (SocketCamWrapper.emitted r).

(** A configuration with a positive width and a negative height. *)
Definition lopsided_config : jsval :=
  JObj [("width", JNum (Int 640)); ("height", JNum (Int (-1)))].

(** A marker cut in two by the chunking of the child's output. *)
Definition cut_marker : list string := ["Setting pipeline to PLA"; "YING ..." ++ LF].

(** A Linux machine where the executable writes its banner and then hangs
    until the timeout kills it. *)
Definition slow_host : host := {|
  platform := "linux";
  arch := "x64";
  env := fun k => if String.eqb k "PATH" then Some "/usr/bin" else None;
  accessible := fun p => String.eqb p "/usr/bin/gst-launch-1.0";
  run_sync := fun f args =>
    if String.eqb f "/usr/bin/gst-launch-1.0" then Ok (Some version_banner) else Ok None;
  run_timed_out := fun f args => String.eqb f "/usr/bin/gst-launch-1.0"
|}.

(** The version query ran into its timeout: the executable was found and
    the child was killed after one second. *)
Definition version_query_timed_out `{Runtime} (l : listing) (h : host) (this : GstLaunch.t)
  : Prop :=
  exists path,
    GstLaunch.getPath l h this = Ok (JStr path) /\
    run_timed_out h path [GstLaunch.gst_launch_versionarg this] = true.

(** Two hosts that answer alike except in whether the child of the version
    query was timed out. *)
Definition same_but_timeout (h h' : host) : Prop :=
  platform h = platform h' /\ arch h = arch h' /\ env h = env h' /\
  accessible h = accessible h' /\ run_sync h = run_sync h'.

(** A port that is a number from 0 to 65535. *)
Definition port_in_range (port : jsval) : Prop :=
  exists z, port = JNum (Int z) /\ (0 <= z <= 65535)%Z.

(** An orchestrator configuration whose start option is a string, and one
    whose port of the pipeline is no port. *)
Definition careless_config : jsval := JObj [("start", JStr "go")].

Definition far_port_config : jsval :=
  JObj [("start", JFun "() => console.log('streaming')"); ("gst_port", JNum (Int 70000))].

(** * Theorems *)

(** ** Strings *)

Lemma append_assoc (a b c : string) : (a ++ b) ++ c = a ++ (b ++ c).
Proof. induction a as [|x a IH]; simpl; [reflexivity | now rewrite IH]. Qed.

Lemma append_empty_r (a : string) : a ++ "" = a.
Proof. induction a as [|x a IH]; simpl; [reflexivity | now rewrite IH]. Qed.

Lemma strip_prefix_app_r (p s t r : string) :
  strip_prefix p s = Some r -> strip_prefix p (s ++ t) = Some (r ++ t).
Proof.
  revert s; induction p as [|x p IH]; simpl; intros s Hs.
  - now inversion Hs.
  - destruct s as [|y s]; [discriminate|]. simpl.
    destruct (Ascii.eqb x y); [now apply IH | discriminate].
Qed.

Lemma startsWith_app (s t p : string) : startsWith s p = true -> startsWith (s ++ t) p = true.
Proof.
  unfold startsWith. destruct (strip_prefix p s) eqn:E; [|discriminate].
  intros _. now rewrite (strip_prefix_app_r _ _ t _ E).
Qed.

Lemma includes_app_l (s t needle : string) :
  includes s needle = true -> includes (s ++ t) needle = true.
Proof.
  induction s as [|x s IH]; simpl; intros Hs.
  - rewrite orb_false_r in Hs.
    destruct t; simpl; apply orb_true_iff; left; now apply (startsWith_app "" _ needle).
  - apply orb_true_iff in Hs. apply orb_true_iff. destruct Hs as [Hs|Hs].
    + left. now apply (startsWith_app (String x s) t needle).
    + right. now apply IH.
Qed.

Lemma endsWith_refl (s : string) : endsWith s s = true.
Proof. destruct s; simpl; now rewrite ?Ascii.eqb_refl, ?String.eqb_refl. Qed.

Lemma endsWith_app (s t : string) : endsWith (s ++ t) t = true.
Proof.
  induction s as [|x s IH]; simpl; [apply endsWith_refl|].
  rewrite IH. apply orb_true_r.
Qed.

Lemma endsWith_app3 (a b c t : string) : endsWith (a ++ b ++ c ++ t) t = true.
Proof. rewrite <- !append_assoc. apply endsWith_app. Qed.

(** ** Values and assertions *)

(** A type name is never empty, so an assertion on it never fires. *)
Lemma Assert_ok_typeof (v : jsval) (message : string) :
  Assert_ok (JStr (typeof v)) message = Ok tt.
Proof. now destruct v. Qed.

Lemma get_prop_config (config : jsval) (k : string) :
  get_prop (js_or config (JObj [])) k = Ok (field config k).
Proof.
  destruct config as [| |b|n|s|props|src]; try reflexivity.
  - now destruct b.
  - destruct n as [z|]; [|reflexivity]. unfold js_or; simpl. now destruct (z =? 0)%Z.
  - unfold js_or; simpl. now destruct (String.eqb s "").
Qed.

Lemma field_set_prop (k k' : string) (v config : jsval) :
  field (set_prop k v config) k' = if String.eqb k' k then v else field config k'.
Proof. unfold set_prop; simpl. destruct (String.eqb k' k); [reflexivity | now destruct config]. Qed.

Lemma LiveCam_check_ok `{Runtime} (v : jsval) (expected : string) :
  LiveCam.check v expected = Ok tt.
Proof. unfold LiveCam.check. destruct (truthy v); [apply Assert_ok_typeof | reflexivity]. Qed.

(** ** The pipeline builder *)

Section Builder.
Context `{Runtime}.

(** The constructor never raises; its fields are the defaulted properties
    and its source chain is the four clauses in order. *)
Lemma constructor_clauses (l : listing) (config : jsval) :
  GstLiveCamServer.constructor l config =
  Ok {| GstLiveCamServer.fake := js_or (field config "fake") (JBool false);
        GstLiveCamServer.width := js_or (field config "width") (JNum (Int 800));
        GstLiveCamServer.height := js_or (field config "height") (JNum (Int 600));
        GstLiveCamServer.framerate := js_or (field config "framerate") (JNum (Int 30));
        GstLiveCamServer.grayscale := js_or (field config "grayscale") (JBool false);
        GstLiveCamServer.deviceIndex := js_or (field config "deviceIndex") (JNum (Int (-1)));
        GstLiveCamServer.gst_multipart_boundary := "--videoboundary";
        GstLiveCamServer.gst_video_src :=
          source_clause l (js_or (field config "fake") (JBool false))
            ++ scale_clause (js_or (field config "width") (JNum (Int 800)))
                            (js_or (field config "height") (JNum (Int 600)))
            ++ rate_clause (js_or (field config "framerate") (JNum (Int 30)))
            ++ gray_clause (js_or (field config "grayscale") (JBool false)) |}.
Proof.
  unfold GstLiveCamServer.constructor.
  rewrite Assert_ok_typeof; cbn [bind].
  rewrite !get_prop_config; cbn [bind].
  rewrite !Assert_ok_typeof; cbn [bind].
  do 2 f_equal.
  unfold source_clause, scale_clause, rate_clause, gray_clause.
  repeat match goal with |- context [if ?b then _ else _] => destruct b end;
    rewrite ?append_assoc, ?append_empty_r; reflexivity.
Qed.
End Builder.

Lemma has_char_app (c : ascii) (s t : string) :
  has_char c (s ++ t) = has_char c s || has_char c t.
Proof. induction s as [|x s IH]; simpl; [reflexivity | now rewrite IH, orb_assoc]. Qed.

Lemma strip_prefix_has_char (c : ascii) (p s r : string) :
  strip_prefix p s = Some r -> has_char c p = true -> has_char c s = true.
Proof.
  revert s; induction p as [|x p IH]; simpl; intros s Hs Hc; [discriminate|].
  destruct s as [|y s]; [discriminate|].
  destruct (Ascii.eqb x y) eqn:E; [|discriminate].
  apply Ascii.eqb_eq in E; subst y. simpl.
  destruct (Ascii.eqb c x); [reflexivity|]. simpl in *. now apply IH.
Qed.

Lemma includes_has_char (c : ascii) (s needle : string) :
  includes s needle = true -> has_char c needle = true -> has_char c s = true.
Proof.
  induction s as [|x s IH]; simpl; intros Hs Hc.
  - rewrite orb_false_r in Hs. unfold startsWith in Hs.
    destruct (strip_prefix needle "") eqn:E; [|discriminate].
    exact (strip_prefix_has_char c _ _ _ E Hc).
  - apply orb_true_iff in Hs. destruct Hs as [Hs|Hs].
    + unfold startsWith in Hs.
      destruct (strip_prefix needle (String x s)) eqn:E; [|discriminate].
      exact (strip_prefix_has_char c _ _ _ E Hc).
    + rewrite (IH Hs Hc). apply orb_true_r.
Qed.

Lemma uint_has_no_u (d : Decimal.uint) : has_char "u" (NilEmpty.string_of_uint d) = false.
Proof. induction d; simpl; auto. Qed.

Lemma numeric_char_not_u (c : ascii) : numeric_char c = true -> Ascii.eqb "u" c = false.
Proof. destruct c as [[] [] [] [] [] [] [] []]; try reflexivity; discriminate. Qed.

Lemma numeric_text_has_no_u (s : string) : numeric_text s = true -> has_char "u" s = false.
Proof.
  induction s as [|c s IH]; [reflexivity|]. cbn [numeric_text has_char].
  intros Hs. apply andb_true_iff in Hs. destruct Hs as [Hc Hs].
  now rewrite (numeric_char_not_u c Hc), (IH Hs).
Qed.

Lemma number_has_no_u `{Runtime} (n : number) : has_char "u" (number_to_string n) = false.
Proof.
  destruct n as [z|]; [|reflexivity].
  unfold number_to_string. destruct (safe_integer z).
  - unfold Z_to_string, NilZero.string_of_int, NilZero.string_of_uint.
    destruct (Z.to_int z) as [d|d]; destruct d; simpl; auto using uint_has_no_u.
  - apply numeric_text_has_no_u, number_text_numeric.
Qed.

Section BuilderScenario.
Context `{Runtime}.

Lemma command_clauses (l : listing) (config tcp_addr tcp_port : jsval) :
  command l config tcp_addr tcp_port =
  Ok (source_clause l (js_or (field config "fake") (JBool false))
        ++ scale_clause (js_or (field config "width") (JNum (Int 800)))
                        (js_or (field config "height") (JNum (Int 600)))
        ++ rate_clause (js_or (field config "framerate") (JNum (Int 30)))
        ++ gray_clause (js_or (field config "grayscale") (JBool false))
        ++ sink_clause tcp_addr tcp_port).
Proof.
  unfold command. rewrite constructor_clauses. cbn [bind].
  unfold GstLiveCamServer.cam_pipeline, sink_clause; cbn [GstLiveCamServer.gst_video_src
    GstLiveCamServer.gst_multipart_boundary].
  now rewrite !append_assoc.
Qed.

(** What is launched depends on the server only through the command. *)
Lemma launch_command (l : listing) (h : host) (config config' tcp_addr tcp_port : jsval) :
  command l config tcp_addr tcp_port = command l config' tcp_addr tcp_port ->
  launch l h config tcp_addr tcp_port = launch l h config' tcp_addr tcp_port.
Proof.
  unfold command, launch. rewrite !constructor_clauses. cbn [bind].
  intros E. injection E as E.
  unfold GstLiveCamServer.start. now rewrite E.
Qed.

Lemma chain_has_no_u (l : listing) (fake width height framerate : jsval) :
  has_char "u" (source_clause l (js_or fake (JBool false))
                  ++ scale_clause width height ++ rate_clause framerate) = false.
Proof.
  rewrite !has_char_app.
  assert (Hs : has_char "u" (source_clause l (js_or fake (JBool false))) = false).
  { unfold source_clause. destruct (negb _); [destruct l|]; reflexivity. }
  assert (Hc : has_char "u" (scale_clause width height) = false).
  { unfold scale_clause. destruct (_ || _); [|reflexivity].
    rewrite !has_char_app, !number_has_no_u. reflexivity. }
  assert (Hr : has_char "u" (rate_clause framerate) = false).
  { unfold rate_clause. destruct (gt0 _); [|reflexivity].
    rewrite !has_char_app, !number_has_no_u. reflexivity. }
  now rewrite Hs, Hc, Hr.
Qed.

(** C7.  For the configuration [{fake:true, width:640, height:480,
    framerate:15, grayscale:false}], in either listing and for every relay
    address and port, the command string is the synthetic source, the
    scale clause with [width=640,height=480], the rate clause with
    [framerate=15/1] and then the encode, multiplex and TCP-sink clause
    with the boundary [--videoboundary], the address and the port; so it
    contains the first three and ends with the last. *)
Theorem scenario_command (l : listing) (tcp_addr tcp_port : jsval) :
  exists cmd,
    command l scenario_config tcp_addr tcp_port = Ok cmd /\
    cmd = "videotestsrc ! videoscale ! video/x-raw,width=640,height=480"
            ++ " ! videorate ! video/x-raw,framerate=15/1"
            ++ " ! jpegenc ! multipartmux  boundary=" ++ dquote ++ "--videoboundary" ++ dquote
            ++ " ! tcpserversink host=" ++ ToString tcp_addr ++ " port=" ++ ToString tcp_port /\
    startsWith cmd "videotestsrc" = true /\
    includes cmd " ! videoscale ! video/x-raw,width=640,height=480" = true /\
    includes cmd " ! videorate ! video/x-raw,framerate=15/1" = true /\
    endsWith cmd (" ! jpegenc ! multipartmux  boundary=" ++ dquote ++ "--videoboundary" ++ dquote
                    ++ " ! tcpserversink host=" ++ ToString tcp_addr
                    ++ " port=" ++ ToString tcp_port) = true.
Proof.
  eexists. split; [apply command_clauses|].
  set (sink := sink_clause tcp_addr tcp_port).
  change (js_or (field scenario_config "fake") (JBool false)) with (JBool true).
  change (js_or (field scenario_config "width") (JNum (Int 800))) with (JNum (Int 640)).
  change (js_or (field scenario_config "height") (JNum (Int 600))) with (JNum (Int 480)).
  change (js_or (field scenario_config "framerate") (JNum (Int 30))) with (JNum (Int 15)).
  change (js_or (field scenario_config "grayscale") (JBool false)) with (JBool false).
  change (source_clause l (JBool true)) with "videotestsrc".
  change (scale_clause (JNum (Int 640)) (JNum (Int 480)))
    with " ! videoscale ! video/x-raw,width=640,height=480".
  change (rate_clause (JNum (Int 15))) with " ! videorate ! video/x-raw,framerate=15/1".
  change (gray_clause (JBool false)) with "".
  change ("" ++ sink) with sink.
  split; [reflexivity|]. split; [reflexivity|].
  split; [|split].
  - rewrite <- !append_assoc. apply includes_app_l. reflexivity.
  - rewrite <- !append_assoc. apply includes_app_l. reflexivity.
  - apply endsWith_app3.
Qed.
End BuilderScenario.

Section BuilderRelations.
Context `{Runtime}.

(** C8.  The command string is a function of the five properties the
    constructor reads: configurations that agree on them (identical ones
    among them) give the same command.  With grayscale true the command
    is the command for grayscale false with one desaturation clause put
    at the end of the source chain, which holds none before; and with the
    synthetic-source flag true or false the commands differ in the
    leading source clause only. *)
Theorem command_pure_and_clausewise (l : listing) (config config' tcp_addr tcp_port : jsval) :
  (forall k, In k ["fake"; "width"; "height"; "framerate"; "grayscale"] ->
             field config k = field config' k) ->
  command l config tcp_addr tcp_port = command l config' tcp_addr tcp_port /\
  (exists chain,
     command l (set_prop "grayscale" (JBool false) config) tcp_addr tcp_port
       = Ok (chain ++ sink_clause tcp_addr tcp_port) /\
     command l (set_prop "grayscale" (JBool true) config) tcp_addr tcp_port
       = Ok (chain ++ " ! videobalance saturation=0.0 ! videoconvert"
               ++ sink_clause tcp_addr tcp_port) /\
     includes chain " ! videobalance saturation=0.0 ! videoconvert" = false) /\
  (exists downstream,
     command l (set_prop "fake" (JBool true) config) tcp_addr tcp_port
       = Ok ("videotestsrc" ++ downstream) /\
     command l (set_prop "fake" (JBool false) config) tcp_addr tcp_port
       = Ok (match l with
             | Listing1 => "v4l2src ! decodebin"
             | Listing2 => "-v ksvideosrc do-stats=TRUE"
             end ++ downstream)).
Proof.
  intros Hagree. split; [|split].
  - rewrite !command_clauses.
    rewrite <- !Hagree by (simpl; tauto). reflexivity.
  - exists (source_clause l (js_or (field config "fake") (JBool false))
              ++ scale_clause (js_or (field config "width") (JNum (Int 800)))
                              (js_or (field config "height") (JNum (Int 600)))
              ++ rate_clause (js_or (field config "framerate") (JNum (Int 30)))).
    rewrite !command_clauses, !field_set_prop. cbn [String.eqb Ascii.eqb Bool.eqb].
    change (js_or (JBool false) (JBool false)) with (JBool false).
    change (js_or (JBool true) (JBool false)) with (JBool true).
    change (gray_clause (JBool false)) with "".
    change (gray_clause (JBool true)) with " ! videobalance saturation=0.0 ! videoconvert".
    split; [now rewrite !append_assoc|]. split; [now rewrite !append_assoc|].
    destruct (includes _ _) eqn:E; [|reflexivity].
    apply (includes_has_char "u") in E; [|reflexivity].
    now rewrite chain_has_no_u in E.
  - exists (scale_clause (js_or (field config "width") (JNum (Int 800)))
                         (js_or (field config "height") (JNum (Int 600)))
              ++ rate_clause (js_or (field config "framerate") (JNum (Int 30)))
              ++ gray_clause (js_or (field config "grayscale") (JBool false))
              ++ sink_clause tcp_addr tcp_port).
    rewrite !command_clauses, !field_set_prop. cbn [String.eqb Ascii.eqb Bool.eqb].
    split; reflexivity.
Qed.

(** C9.  Configurations that differ in [deviceIndex] only give the same
    command string, and the same child process (executable and argument
    list) is launched for them on every host. *)
Theorem deviceIndex_unused (l : listing) (h : host) (config config' tcp_addr tcp_port : jsval) :
  (forall k, k <> "deviceIndex" -> field config k = field config' k) ->
  command l config tcp_addr tcp_port = command l config' tcp_addr tcp_port /\
  launch l h config tcp_addr tcp_port = launch l h config' tcp_addr tcp_port.
Proof.
  intros Hsame.
  assert (E : command l config tcp_addr tcp_port = command l config' tcp_addr tcp_port).
  { rewrite !command_clauses. rewrite <- !Hsame by discriminate. reflexivity. }
  split; [exact E | now apply launch_command].
Qed.

Lemma js_or_number_default (v : jsval) (d : Z) :
  absent_or_number v -> (0 < d)%Z ->
  exists z, js_or v (JNum (Int d)) = JNum (Int z) /\ z <> 0%Z /\
            ((z < 0)%Z <-> negative v) /\
            (truthy v = false -> z = d).
Proof.
  intros [->|[[z0|] ->]] Hd.
  - exists d. repeat split; try lia; auto.
    intros (z & E & _); discriminate.
  - unfold js_or; simpl. destruct (Z.eqb_spec z0 0) as [->|Hz]; simpl.
    + exists d. repeat split; try lia; auto.
      intros (z & E & Hneg). injection E as <-. lia.
    + exists z0. repeat split; auto.
      * intros Hneg. now exists z0.
      * intros (z & E & Hneg). now injection E as <-.
      * discriminate.
  - exists d. repeat split; try lia; auto.
    intros (z & E & _); discriminate.
Qed.

Lemma scale_clause_empty (zw zh : Z) :
  zw <> 0%Z -> zh <> 0%Z ->
  (scale_clause (JNum (Int zw)) (JNum (Int zh)) = "" <-> (zw < 0 /\ zh < 0)%Z).
Proof.
  intros Hw Hh. unfold scale_clause, gt0; simpl.
  destruct (Z.ltb_spec 0 zw), (Z.ltb_spec 0 zh); simpl;
    split; try discriminate; try lia; reflexivity.
Qed.

Lemma rate_clause_empty (zf : Z) :
  zf <> 0%Z -> (rate_clause (JNum (Int zf)) = "" <-> (zf < 0)%Z).
Proof.
  intros Hf. unfold rate_clause, gt0; simpl.
  destruct (Z.ltb_spec 0 zf); simpl; split; try discriminate; try lia; reflexivity.
Qed.

(** C10.  For a configuration whose width, height and framerate are
    numbers or absent, the constructor succeeds; a falsy width (0 among
    them) is stored as 800, a falsy height as 600, a falsy framerate as 30,
    and a fake or grayscale flag of false stays false; the source chain is
    the source, scale, rate and desaturation clauses in order; the scale
    clause is empty exactly when the supplied width and height are both
    negative, and the rate clause exactly when the supplied framerate is
    negative, so a 0 suppresses neither. *)
Theorem falsy_fields_take_defaults (l : listing) (config : jsval) :
  absent_or_number (field config "width") ->
  absent_or_number (field config "height") ->
  absent_or_number (field config "framerate") ->
  exists s,
    GstLiveCamServer.constructor l config = Ok s /\
    (truthy (field config "width") = false -> GstLiveCamServer.width s = JNum (Int 800)) /\
    (truthy (field config "height") = false -> GstLiveCamServer.height s = JNum (Int 600)) /\
    (truthy (field config "framerate") = false ->
       GstLiveCamServer.framerate s = JNum (Int 30) /\
       rate_clause (GstLiveCamServer.framerate s) = " ! videorate ! video/x-raw,framerate=30/1") /\
    (field config "fake" = JBool false -> GstLiveCamServer.fake s = JBool false) /\
    (field config "grayscale" = JBool false -> GstLiveCamServer.grayscale s = JBool false) /\
    GstLiveCamServer.gst_video_src s =
      source_clause l (GstLiveCamServer.fake s)
        ++ scale_clause (GstLiveCamServer.width s) (GstLiveCamServer.height s)
        ++ rate_clause (GstLiveCamServer.framerate s)
        ++ gray_clause (GstLiveCamServer.grayscale s) /\
    (scale_clause (GstLiveCamServer.width s) (GstLiveCamServer.height s) = "" <->
       negative (field config "width") /\ negative (field config "height")) /\
    (rate_clause (GstLiveCamServer.framerate s) = "" <->
       negative (field config "framerate")).
Proof.
  intros Hw Hh Hf.
  eexists. split; [apply constructor_clauses|].
  cbn [GstLiveCamServer.fake GstLiveCamServer.width GstLiveCamServer.height
       GstLiveCamServer.framerate GstLiveCamServer.grayscale GstLiveCamServer.gst_video_src].
  destruct (js_or_number_default _ 800 Hw ltac:(lia)) as (zw & -> & Hw0 & Hwn & Hwd).
  destruct (js_or_number_default _ 600 Hh ltac:(lia)) as (zh & -> & Hh0 & Hhn & Hhd).
  destruct (js_or_number_default _ 30 Hf ltac:(lia)) as (zf & -> & Hf0 & Hfn & Hfd).
  split; [intros E; now rewrite (Hwd E)|].
  split; [intros E; now rewrite (Hhd E)|].
  split; [intros E; rewrite (Hfd E); split; reflexivity|].
  split; [intros ->; reflexivity|].
  split; [intros ->; reflexivity|].
  split; [reflexivity|].
  split.
  - rewrite (scale_clause_empty zw zh Hw0 Hh0), Hwn, Hhn. reflexivity.
  - rewrite (rate_clause_empty zf Hf0), Hfn. reflexivity.
Qed.
End BuilderRelations.

(** ** The launcher *)

Section Launcher.
Context `{Runtime}.

Lemma for_each_app {S X : Type} (body : S -> X -> result S) (xs ys : list X) (s : S) :
  for_each body (xs ++ ys)%list s = (s' <- for_each body xs s ;; for_each body ys s').
Proof.
  revert s; induction xs as [|x xs IH]; intros s; simpl; [reflexivity|].
  destruct (body s x); simpl; [apply IH | reflexivity].
Qed.

Lemma probe1_eq (h : host) (this : GstLaunch.t) (detected_path : jsval) (dir : string) :
  probe1 h this detected_path dir =
  Ok (if accessible h (candidate this dir) then JStr (candidate this dir) else detected_path).
Proof.
  unfold probe1, candidate, accessSync; cbn zeta.
  now destruct (accessible h _).
Qed.

Lemma scan1_none (h : host) (this : GstLaunch.t) (dirs : list string) (detected_path : jsval) :
  (forall d, In d dirs -> accessible h (candidate this d) = false) ->
  for_each (probe1 h this) dirs detected_path = Ok detected_path.
Proof.
  revert detected_path; induction dirs as [|d dirs IH]; intros acc Hnone; simpl; [reflexivity|].
  rewrite probe1_eq, (Hnone d) by now left. simpl.
  apply IH. intros d' Hd'. apply Hnone. now right.
Qed.

Lemma scan1_last (h : host) (this : GstLaunch.t) (before after : list string) (dir : string)
      (detected_path : jsval) :
  accessible h (candidate this dir) = true ->
  (forall d, In d after -> accessible h (candidate this d) = false) ->
  for_each (probe1 h this) (before ++ dir :: after)%list detected_path
    = Ok (JStr (candidate this dir)).
Proof.
  intros Hdir Hafter. rewrite for_each_app.
  assert (Hb : exists acc, for_each (probe1 h this) before detected_path = Ok acc).
  { clear. revert detected_path; induction before as [|d ds IH]; intros acc; simpl.
    - now exists acc.
    - rewrite probe1_eq. simpl. apply IH. }
  destruct Hb as [acc ->]. simpl.
  rewrite probe1_eq, Hdir. simpl. now apply scan1_none.
Qed.

(** The first listing returns the candidate of the last PATH entry that
    holds the executable, and undefined when no entry does. *)
Lemma getPath1_last_wins (h : host) (this : GstLaunch.t) (PATH : string)
      (before after : list string) (dir : string) :
  env h "PATH" = Some PATH ->
  split ":" PATH = (before ++ dir :: after)%list ->
  accessible h (candidate this dir) = true ->
  (forall d, In d after -> accessible h (candidate this d) = false) ->
  GstLaunch.getPath Listing1 h this = Ok (JStr (candidate this dir)).
Proof.
  intros HP Hsplit Hdir Hafter.
  unfold GstLaunch.getPath, GstLaunch.getPath1, env_val. rewrite HP. simpl. rewrite Hsplit.
  change (for_each _ (before ++ dir :: after)%list JUndefined)
    with (for_each (probe1 h this) (before ++ dir :: after)%list JUndefined).
  now rewrite (scan1_last h this before after dir JUndefined Hdir Hafter).
Qed.

Lemma getPath1_none (h : host) (this : GstLaunch.t) (PATH : string) :
  env h "PATH" = Some PATH ->
  (forall d, In d (split ":" PATH) -> accessible h (candidate this d) = false) ->
  GstLaunch.getPath Listing1 h this = Ok JUndefined.
Proof.
  intros HP Hnone.
  unfold GstLaunch.getPath, GstLaunch.getPath1, env_val. rewrite HP. simpl.
  change (for_each _ (split ":" PATH) JUndefined)
    with (for_each (probe1 h this) (split ":" PATH) JUndefined).
  now rewrite (scan1_none h this _ JUndefined Hnone).
Qed.

(** In the second listing the search of PATH on Linux finds nothing,
    whatever the directories hold. *)
Lemma getPath2_linux (h : host) (this : GstLaunch.t) (PATH : string) :
  platform h = "linux" -> env h "PATH" = Some PATH ->
  GstLaunch.getPath Listing2 h this = Ok JUndefined.
Proof.
  intros Hp HP. unfold GstLaunch.getPath, GstLaunch.getPath2, env_val.
  rewrite Hp, HP. simpl.
  induction (split ":" PATH) as [|d dirs IH]; simpl; [reflexivity | exact IH].
Qed.
End Launcher.

Section VersionQuery.
Context `{Runtime}.

Lemma getVersion_failure (l : listing) (h : host) (this : GstLaunch.t) :
  version_query_failure l h this -> GstLaunch.getVersion l h this = Ok JUndefined.
Proof.
  unfold GstLaunch.getVersion.
  intros [e Hp | v Hp Hv | path e Hp Hr | path Hp Hr | path text Hp Hr Hi
          | path text Hp Hr Hi Hm]; rewrite Hp; cbn [bind try_catch];
    rewrite ?Assert_ok_typeof; cbn [bind try_catch]; try reflexivity.
  - destruct v; try reflexivity. now destruct (Hv s).
  - unfold SpawnSync. now rewrite Hr.
  - unfold SpawnSync. now rewrite Hr.
  - unfold SpawnSync. rewrite Hr. cbn [bind]. now rewrite Hi.
  - unfold SpawnSync. rewrite Hr. cbn [bind]. rewrite Hi.
    unfold match_version_0. now rewrite Hm.
Qed.

Lemma getVersion_success (l : listing) (h : host) (this : GstLaunch.t) (tok : string) :
  version_output_matches l h this tok -> GstLaunch.getVersion l h this = Ok (JStr tok).
Proof.
  intros (path & text & m & Hp & Hr & Hi & Hm & ->).
  unfold GstLaunch.getVersion. rewrite Hp. cbn [bind try_catch].
  rewrite Assert_ok_typeof. cbn [bind try_catch].
  unfold SpawnSync. rewrite Hr. cbn [bind]. rewrite Hi.
  unfold match_version_0. now rewrite Hm.
Qed.

(** Either the query fails or its output matches. *)
Lemma version_query_outcome (l : listing) (h : host) (this : GstLaunch.t) :
  version_query_failure l h this \/ exists tok, version_output_matches l h this tok.
Proof.
  destruct (GstLaunch.getPath l h this) as [v|e] eqn:Hp;
    [|left; now apply (path_search_raises _ _ _ e)].
  destruct v as [| |b|n|path|props|src];
    try (left; apply (executable_absent _ _ _ _ Hp); discriminate).
  destruct (run_sync h path [GstLaunch.gst_launch_versionarg this]) as [[text|]|e] eqn:Hr.
  - destruct (includes text "GStreamer") eqn:Hi.
    + destruct (regex_version_first text) as [m|] eqn:Hm.
      * right. exists (replace_version_prefix m), path, text, m. auto.
      * left. now apply (extraction_raises _ _ _ path text).
    + left. now apply (output_foreign _ _ _ path text).
  - left. now apply (output_missing _ _ _ path).
  - left. now apply (subprocess_raises _ _ _ path e).
Qed.

Lemma LiveCam_constructor_unavailable (l : listing) (h : host) (config : jsval) :
  GstLaunch.isAvailable l h GstLaunch.constructor = Ok false ->
  LiveCam.constructor l h config = Throw (Error "Unable to broadcast.").
Proof.
  intros Ha. unfold LiveCam.constructor.
  rewrite Assert_ok_typeof; cbn [bind].
  rewrite !get_prop_config; cbn [bind].
  rewrite !LiveCam_check_ok; cbn [bind].
  now rewrite Ha.
Qed.

Lemma LiveCam_constructor_available (l : listing) (h : host) (config : jsval) :
  GstLaunch.isAvailable l h GstLaunch.constructor = Ok true ->
  LiveCam.constructor l h config =
  Ok {| LiveCam.gst_tcp_addr := js_or (field config "gst_addr") (JStr "127.0.0.1");
        LiveCam.gst_tcp_port := js_or (field config "gst_port") (JNum (Int 10000));
        LiveCam.ui_addr := js_or (field config "ui_addr") (JStr "127.0.0.1");
        LiveCam.ui_port := js_or (field config "ui_port") (JNum (Int 11000));
        LiveCam.broadcast_addr := js_or (field config "broadcast_addr") (JStr "127.0.0.1");
        LiveCam.broadcast_port := js_or (field config "broadcast_port") (JNum (Int 12000));
        LiveCam.start := field config "start";
        LiveCam.webcam := js_or (field config "webcam") (JObj []);
        LiveCam.gst_cam_wrap := None;
        LiveCam.gst_cam_server := None;
        LiveCam.gst_cam_process := None |}.
Proof.
  intros Ha. unfold LiveCam.constructor.
  rewrite Assert_ok_typeof; cbn [bind].
  rewrite !get_prop_config; cbn [bind].
  rewrite !LiveCam_check_ok; cbn [bind].
  now rewrite Ha.
Qed.

(** C4.  When the version query fails (the search for the executable
    raises or finds nothing, the subprocess call raises, there is no
    output, or the output does not hold the version text) [getVersion]
    answers undefined, [isAvailable] answers false, and constructing the
    orchestrator throws, whatever the configuration. *)
Theorem version_failure_is_fatal (l : listing) (h : host) (config : jsval) :
  version_query_failure l h GstLaunch.constructor ->
  GstLaunch.getVersion l h GstLaunch.constructor = Ok JUndefined /\
  GstLaunch.isAvailable l h GstLaunch.constructor = Ok false /\
  LiveCam.constructor l h config = Throw (Error "Unable to broadcast.").
Proof.
  intros Hfail. pose proof (getVersion_failure _ _ _ Hfail) as Hv.
  assert (Ha : GstLaunch.isAvailable l h GstLaunch.constructor = Ok false).
  { unfold GstLaunch.isAvailable. now rewrite Hv. }
  auto using LiveCam_constructor_unavailable.
Qed.

End VersionQuery.

(** ** The relay *)

Lemma base64_app (a b : list Byte.byte) :
  (List.length a mod 3 = 0)%nat -> base64 (a ++ b)%list = base64 a ++ base64 b.
Proof.
  intros Hmod.
  assert (Hn : exists n, List.length a = (3 * n)%nat).
  { exists (List.length a / 3)%nat.
    pose proof (Nat.div_mod_eq (List.length a) 3). lia. }
  clear Hmod. destruct Hn as [n Hn]. revert a Hn.
  induction n as [|n IH]; intros a Hn.
  - destruct a; [reflexivity | simpl in Hn; lia].
  - destruct a as [|x [|y [|z a]]]; simpl in Hn; try lia.
    change (base64 ((x :: y :: z :: a) ++ b)%list)
      with (let g := group x y z in
            sextet (N.shiftr g 18) ++ sextet (N.shiftr g 12) ++ sextet (N.shiftr g 6)
              ++ sextet g ++ base64 (a ++ b)%list).
    change (base64 (x :: y :: z :: a))
      with (let g := group x y z in
            sextet (N.shiftr g 18) ++ sextet (N.shiftr g 12) ++ sextet (N.shiftr g 6)
              ++ sextet g ++ base64 a).
    cbv zeta. rewrite (IH a) by lia. now rewrite !append_assoc.
Qed.

Lemma decoder_write_spec (held chunk : list Byte.byte) :
  let '(data, held') := decoder_write held chunk in
  exists whole,
    data = base64 whole /\ (List.length whole mod 3 = 0)%nat /\
    (whole ++ held')%list = (held ++ chunk)%list.
Proof.
  unfold decoder_write.
  set (all := (held ++ chunk)%list).
  set (k := (List.length all - List.length all mod 3)%nat).
  exists (firstn k all). split; [reflexivity|]. split; [|apply firstn_skipn].
  assert (Hk : (k <= List.length all)%nat) by (unfold k; lia).
  rewrite length_firstn, Nat.min_l by exact Hk.
  unfold k. pose proof (Nat.div_mod_eq (List.length all) 3) as Hd.
  replace (List.length all - List.length all mod 3)%nat with (List.length all / 3 * 3)%nat by lia.
  apply Nat.Div0.mod_mul.
Qed.

Module RelayFacts.
Import SocketCamWrapper.

Lemma on_data_frame (p : part) (data : string) :
  frameEncoded (on_data p data) = frameEncoded p ++ data /\ held (on_data p data) = held p.
Proof.
  unfold on_data. destruct (String.eqb_spec data "") as [->|_]; simpl.
  - now rewrite append_empty_r.
  - auto.
Qed.

Lemma push_holds (l : listing) (r : relay) (p : part) (bytes chunk : list Byte.byte) :
  current r = Some p -> holds p bytes ->
  exists p',
    step l r (Push chunk) = Ok {| this := this r; current := Some p'; emitted := emitted r |} /\
    holds p' (bytes ++ chunk)%list.
Proof.
  intros Hc (whole & Hf & Hm & Hb). unfold step. rewrite Hc.
  pose proof (decoder_write_spec (held p) chunk) as Hw.
  destruct (decoder_write (held p) chunk) as [data held'].
  destruct Hw as (more & -> & Hmore & Hsplit).
  eexists. split; [reflexivity|].
  destruct (on_data_frame {| frameEncoded := frameEncoded p; held := held' |} (base64 more))
    as [Ef Eh].
  exists (whole ++ more)%list. split; [|split].
  - rewrite Ef; simpl. rewrite Hf. symmetry. now apply base64_app.
  - rewrite length_app, Nat.Div0.add_mod, Hm, Hmore. reflexivity.
  - rewrite Eh; simpl. rewrite <- Hb, <- !app_assoc. now rewrite Hsplit.
Qed.

Lemma pushes_hold (l : listing) (chunks : list (list Byte.byte)) (r : relay) (p : part)
      (bytes : list Byte.byte) (rest : list dicer_event) :
  current r = Some p -> holds p bytes ->
  exists p',
    holds p' (bytes ++ List.concat chunks)%list /\
    run l r (map Push chunks ++ rest)%list
      = run l {| this := this r; current := Some p'; emitted := emitted r |} rest.
Proof.
  revert r p bytes. induction chunks as [|c chunks IH]; intros r p bytes Hc Hh.
  - exists p. simpl. rewrite app_nil_r. split; [exact Hh|].
    destruct r as [t cur em]; simpl in *. now subst cur.
  - destruct (push_holds l r p bytes c Hc Hh) as (p1 & Hstep & Hh1).
    destruct (IH {| this := this r; current := Some p1; emitted := emitted r |} p1
                 (bytes ++ c)%list eq_refl Hh1) as (p' & Hh' & Hrun).
    exists p'. split.
    + simpl. now rewrite app_assoc.
    + cbn [map app run]. rewrite Hstep. exact Hrun.
Qed.

(** The closure at the end of a part holds the encoding of its body. *)
Lemma end_frame (p : part) (bytes : list Byte.byte) :
  holds p bytes ->
  frameEncoded (on_data {| frameEncoded := frameEncoded p; held := [] |} (decoder_end (held p)))
    = base64 bytes.
Proof.
  intros (whole & Hf & Hm & Hb).
  destruct (on_data_frame {| frameEncoded := frameEncoded p; held := [] |}
              (decoder_end (held p))) as [-> _].
  simpl. unfold decoder_end. rewrite Hf, <- Hb. symmetry. now apply base64_app.
Qed.

(** One part through the handlers of the second listing: one "image"
    event with the encoding of the body, which becomes the last image. *)
Lemma part_published (chunks : list (list Byte.byte)) (r : relay) (srv : push_server)
      (rest : list dicer_event) :
  io (this r) = Some srv ->
  run Listing2 r (part_events chunks ++ rest)%list
    = run Listing2
        {| this := {| gst_multipart_boundary := gst_multipart_boundary (this r);
                      lastImage := base64 (List.concat chunks);
                      io := io (this r) |};
           current := None;
           emitted := (emitted r ++ [("image", base64 (List.concat chunks))])%list |}
        rest.
Proof.
  intros Hio. unfold part_events.
  change ((Part :: map Push chunks ++ [PartEnd]) ++ rest)%list
    with (Part :: (map Push chunks ++ [PartEnd]) ++ rest)%list.
  rewrite <- app_assoc.
  cbn [run step].
  set (r0 := {| this := this r; current := Some {| frameEncoded := ""; held := [] |};
                emitted := emitted r |}).
  assert (H0 : holds {| frameEncoded := ""; held := [] |} []).
  { exists []. auto. }
  destruct (pushes_hold Listing2 chunks r0 _ [] ([PartEnd] ++ rest)%list eq_refl H0)
    as (p' & Hh & ->).
  simpl in Hh. cbn [app run step current this emitted r0 on_end].
  rewrite Hio. now rewrite (end_frame p' _ Hh).
Qed.

(** In the first listing the end of a part raises before anything is
    published. *)
Lemma part_raises (chunks : list (list Byte.byte)) (r : relay) (rest : list dicer_event) :
  exists r',
    run Listing1 r (part_events chunks ++ rest)%list = (r', Some (ReferenceError "io")) /\
    emitted r' = emitted r /\ this r' = this r.
Proof.
  unfold part_events.
  change ((Part :: map Push chunks ++ [PartEnd]) ++ rest)%list
    with (Part :: (map Push chunks ++ [PartEnd]) ++ rest)%list.
  rewrite <- app_assoc.
  cbn [run step].
  set (r0 := {| this := this r; current := Some {| frameEncoded := ""; held := [] |};
                emitted := emitted r |}).
  assert (H0 : holds {| frameEncoded := ""; held := [] |} []).
  { exists []. auto. }
  destruct (pushes_hold Listing1 chunks r0 _ [] ([PartEnd] ++ rest)%list eq_refl H0)
    as (p' & Hh & ->).
  eexists. split; [reflexivity|]. split; reflexivity.
Qed.
End RelayFacts.

Section RelayStreams.
Import SocketCamWrapper.

(** In the second listing a stream of two parts makes the relay publish
    two "image" events, each carrying the base64 encoding of the body of
    its part, however the bodies are cut into chunks; [getLastImage] then
    answers the encoding of the second body. *)
Lemma second_listing_publishes_both (addr port : jsval)
      (chunks1 chunks2 : list (list Byte.byte)) :
  exists r,
    run Listing2 (connected addr port) (part_events chunks1 ++ part_events chunks2)%list
      = (r, None) /\
    emitted r = [("image", base64 (List.concat chunks1));
                 ("image", base64 (List.concat chunks2))] /\
    getLastImage (this r) = base64 (List.concat chunks2).
Proof.
  eexists. split.
  - rewrite (RelayFacts.part_published chunks1 _
               {| listen_port := port; listen_addr := addr |}) by reflexivity.
    rewrite <- (app_nil_r (part_events chunks2)).
    rewrite (RelayFacts.part_published chunks2 _
               {| listen_port := port; listen_addr := addr |}) by reflexivity.
    reflexivity.
  - split; reflexivity.
Qed.

(** C1, on the first listing.  For every stream of two parts, however
    their bodies are cut into chunks, the handler of the first part's end
    raises a ReferenceError for [io]: no "image" event is published and
    [getLastImage] still answers the empty string. *)
Theorem first_listing_publishes_nothing (addr port : jsval)
        (chunks1 chunks2 : list (list Byte.byte)) :
  exists r,
    run Listing1 (connected addr port) (part_events chunks1 ++ part_events chunks2)%list
      = (r, Some (ReferenceError "io")) /\
    emitted r = [] /\
    getLastImage (this r) = "".
Proof.
  destruct (RelayFacts.part_raises chunks1 (connected addr port) (part_events chunks2))
    as (r & Hrun & Hem & Hthis).
  exists r. split; [exact Hrun|]. split; [exact Hem|].
  now rewrite Hthis.
Qed.
End RelayStreams.

(** ** The orchestrator *)

Section ReadySignal.
Context `{Runtime}.
Import LiveCam.

Lemma gt0_bool (b : bool) : gt0 (JBool b) = b.
Proof. now destruct b. Qed.

Lemma wrap_connect (w : SocketCamWrapper.t) (a b c d : jsval) :
  SocketCamWrapper.wrap w a b c d =
  match SocketCamWrapper.connect b a with
  | Ok _ => Ok w
  | Throw e => Throw e
  end.
Proof.
  unfold SocketCamWrapper.wrap. rewrite !Assert_ok_typeof. cbn [bind].
  now destruct (SocketCamWrapper.connect b a).
Qed.

Lemma connect_in_range (port host : jsval) :
  port_in_range port -> SocketCamWrapper.connect port host = Ok tt.
Proof.
  intros (z & -> & Hz). cbn [SocketCamWrapper.connect SocketCamWrapper.validate_port
    SocketCamWrapper.port_number_ok].
  destruct (Z.leb_spec 0 z); [|lia]. destruct (Z.leb_spec z 65535); [reflexivity | lia].
Qed.

Lemma wrap_ok (w : SocketCamWrapper.t) (a b c d : jsval) :
  port_in_range b -> SocketCamWrapper.wrap w a b c d = Ok w.
Proof. intros Hb. now rewrite wrap_connect, (connect_in_range b a Hb). Qed.

(** In the second listing, once [broadcast] has set the wrapper, with a
    port of the pipeline that is a number from 0 to 65535 and with a
    start callback that is a function or not configured: each chunk
    that holds the marker starts the relay and then calls the callback
    if there is one; a chunk without the marker does nothing. *)
Lemma second_listing_ready_signal (this : t) (w : SocketCamWrapper.t) (chunks : list string) :
  gst_cam_wrap this = Some w ->
  port_in_range (gst_tcp_port this) ->
  (truthy (start this) = false \/ exists src, start this = JFun src) ->
  run_stdout Listing2 this chunks = (flat_map (ready_actions this) chunks, None).
Proof.
  intros Hw Hport Hstart. induction chunks as [|data rest IH]; [reflexivity|].
  cbn [run_stdout flat_map]. unfold on_stdout_data, ready_actions at 1.
  rewrite gt0_bool, Hw, (wrap_ok _ _ _ _ _ Hport).
  destruct (includes data "Setting pipeline to PLAYING").
  - destruct Hstart as [Hf|[src Hs]].
    + rewrite Hf. now rewrite IH.
    + rewrite Hs. cbn [truthy call0]. now rewrite IH.
  - now rewrite IH.
Qed.

(** In the first listing the callback is never called. *)
Lemma first_listing_never_calls (this : t) (chunks : list string) (f : jsval) :
  ~ In (Called f) (fst (run_stdout Listing1 this chunks)).
Proof.
  induction chunks as [|data rest IH]; [intros []|].
  cbn [run_stdout]. unfold on_stdout_data.
  destruct (gt0 _).
  - destruct (gst_cam_wrap this) as [w|]; [|intros []].
    rewrite wrap_connect. destruct (SocketCamWrapper.connect _ _); [|intros []].
    cbn. intros [E|[]]. discriminate.
  - destruct (run_stdout Listing1 this rest) as [later e]. exact IH.
Qed.
End ReadySignal.


(** ** Runs on the sample hosts *)

(** On a Mac the second listing starts the relay and calls the callback
    when the marker arrives, and not before. *)
Example second_listing_calls_start :
  exists this,
    broadcasting Listing2 darwin_host ready_config = Ok this /\
    LiveCam.run_stdout Listing2 this [paused_chunk] = ([], None) /\
    LiveCam.run_stdout Listing2 this [paused_chunk; playing_chunk] =
      ([LiveCam.Wrapped (JStr "127.0.0.1") (JNum (Int 10000)) (JStr "127.0.0.1") (JNum (Int 12000));
        LiveCam.Called (JFun "() => console.log('streaming')")], None).
Proof. eexists. split; [vm_compute; reflexivity|]. split; vm_compute; reflexivity. Qed.

(** With port 70000 the orchestrator is constructed, and the handler
    raises out of [socket.connect] when the marker arrives: the relay is
    not started and the callback is not called. *)
Example far_port_raises :
  exists this,
    broadcasting Listing2 darwin_host far_port_config = Ok this /\
    LiveCam.run_stdout Listing2 this [paused_chunk; playing_chunk] =
      ([], Some (RangeError "ERR_SOCKET_BAD_PORT")).
Proof. eexists. split; vm_compute; reflexivity. Qed.

(** A string of digits in the place of the port is read as a number, and
    a port that is null or undefined is refused with a TypeError. *)
Example connect_on_other_ports :
  SocketCamWrapper.connect (JStr "10000") (JStr "127.0.0.1") = Ok tt /\
  SocketCamWrapper.connect (JStr "70000") (JStr "127.0.0.1")
    = Throw (RangeError "ERR_SOCKET_BAD_PORT") /\
  SocketCamWrapper.connect JNull (JStr "127.0.0.1")
    = Throw (TypeError "ERR_INVALID_ARG_TYPE") /\
  SocketCamWrapper.connect JUndefined (JStr "127.0.0.1")
    = Throw (TypeError "ERR_MISSING_ARGS").
Proof. repeat split. Qed.

(** The search of the first listing on the Linux machine: the last of the
    two directories that hold the executable wins. *)
Example first_listing_last_wins :
  GstLaunch.getPath Listing1 linux_host GstLaunch.constructor
    = Ok (JStr (candidate GstLaunch.constructor "/opt/gst/bin")).
Proof.
  apply (getPath1_last_wins linux_host GstLaunch.constructor
           "/usr/local/bin:/usr/bin:/opt/gst/bin" ["/usr/local/bin"; "/usr/bin"] []);
    try reflexivity.
  intros d [].
Qed.

(** The same machine under the second listing, and a machine without the
    executable under the first. *)
Example second_listing_finds_nothing :
  GstLaunch.getPath Listing2 linux_host GstLaunch.constructor = Ok JUndefined.
Proof. now apply (getPath2_linux linux_host _ "/usr/local/bin:/usr/bin:/opt/gst/bin"). Qed.

Example first_listing_finds_nothing :
  GstLaunch.getPath Listing1 bare_host GstLaunch.constructor = Ok JUndefined.
Proof. now apply (getPath1_none bare_host _ "/usr/local/bin:/usr/bin"). Qed.

(** The version query on the sample hosts. *)
Example version_on_sample_hosts :
  GstLaunch.getVersion Listing1 linux_host GstLaunch.constructor = Ok (JStr "1.20.3") /\
  GstLaunch.getVersion Listing2 darwin_host GstLaunch.constructor = Ok (JStr "1.20.3") /\
  GstLaunch.getVersion Listing2 linux_host GstLaunch.constructor = Ok JUndefined /\
  GstLaunch.getVersion Listing1 bare_host GstLaunch.constructor = Ok JUndefined.
Proof. repeat split. Qed.

(** A stream of two parts through the relay of the second listing, the
    first body cut in two chunks. *)
Example two_parts_relayed :
  exists r,
    SocketCamWrapper.run Listing2
      (SocketCamWrapper.connected (JStr "127.0.0.1") (JNum (Int 12000)))
      (SocketCamWrapper.part_events [[Byte.x4d; Byte.x61]; [Byte.x6e]]
         ++ SocketCamWrapper.part_events [[Byte.x4d; Byte.x61]])%list = (r, None) /\
    SocketCamWrapper.emitted r = [("image", "TWFu"); ("image", "TWE=")] /\
    SocketCamWrapper.getLastImage (SocketCamWrapper.this r) = "TWE=".
Proof. eexists. split; [vm_compute; reflexivity|]. split; reflexivity. Qed.

(** C3, on the first listing.  After [broadcast] on a machine that has the
    executable, with a start callback configured, the chunk that holds the
    marker starts the relay and then raises a ReferenceError for [start]:
    the callback is not called.  It is never called in the first listing,
    whatever the orchestrator and the chunks. *)
Theorem first_listing_start_unbound :
  (exists this,
     broadcasting Listing1 linux_host ready_config = Ok this /\
     LiveCam.start this = JFun "() => console.log('streaming')" /\
     LiveCam.run_stdout Listing1 this [paused_chunk; playing_chunk] =
       ([LiveCam.Wrapped (JStr "127.0.0.1") (JNum (Int 10000))
           (JStr "127.0.0.1") (JNum (Int 12000))],
        Some (ReferenceError "start"))) /\
  (forall this chunks f, ~ In (LiveCam.Called f) (fst (LiveCam.run_stdout Listing1 this chunks))).
Proof.
  split.
  - eexists. split; [vm_compute; reflexivity|]. split; vm_compute; reflexivity.
  - intros this chunks f. apply first_listing_never_calls.
Qed.

(** C2.  A pipeline configuration with a string width and a number
    grayscale flag is accepted by the constructor of the pipeline server in
    both listings, and an orchestrator configuration with a string for the
    start callback and for a port is accepted by the constructor of the
    orchestrator on a machine that has the executable: no assertion fires,
    and the mistyped values are stored as they are. *)
Theorem mistyped_configuration_accepted :
  (forall l, exists s,
     GstLiveCamServer.constructor l mistyped_webcam = Ok s /\
     GstLiveCamServer.width s = JStr "640" /\
     GstLiveCamServer.grayscale s = JNum (Int 1)) /\
  (exists o,
     LiveCam.constructor Listing1 linux_host mistyped_config = Ok o /\
     LiveCam.start o = JStr "go" /\
     LiveCam.gst_tcp_port o = JStr "10000" /\
     LiveCam.webcam o = mistyped_webcam) /\
  (exists o,
     LiveCam.constructor Listing2 darwin_host mistyped_config = Ok o /\
     LiveCam.start o = JStr "go" /\
     LiveCam.gst_tcp_port o = JStr "10000" /\
     LiveCam.webcam o = mistyped_webcam).
Proof.
  split; [|split].
  - intros l. eexists. split; [apply constructor_clauses|]. split; reflexivity.
  - eexists. split; [vm_compute; reflexivity|]. repeat split.
  - eexists. split; [vm_compute; reflexivity|]. repeat split.
Qed.

(** C5, on the second listing.  On a Linux machine whose PATH lists the
    executable in two directories the first listing returns the path built
    from the last of them, and the second listing returns undefined. *)
Theorem second_listing_misses_path_entries :
  env linux_host "PATH" = Some "/usr/local/bin:/usr/bin:/opt/gst/bin" /\
  accessible linux_host "/usr/local/bin/gst-launch-1.0" = true /\
  accessible linux_host "/opt/gst/bin/gst-launch-1.0" = true /\
  GstLaunch.getPath Listing1 linux_host GstLaunch.constructor
    = Ok (JStr "/opt/gst/bin/gst-launch-1.0") /\
  GstLaunch.getPath Listing2 linux_host GstLaunch.constructor = Ok JUndefined.
Proof. repeat split. Qed.

(** ** The timeout of the version query *)

(** A version query that ran into its timeout after the banner was
    written: the tool counts as available and the orchestrator is
    constructed. *)
Lemma timed_out_version_query_is_not_fatal :
  version_query_timed_out Listing1 slow_host GstLaunch.constructor /\
  GstLaunch.isAvailable Listing1 slow_host GstLaunch.constructor = Ok true /\
  exists o, LiveCam.constructor Listing1 slow_host ready_config = Ok o.
Proof.
  split; [exists "/usr/bin/gst-launch-1.0"; split; reflexivity|].
  split; [reflexivity|]. eexists. reflexivity.
Qed.

(** The same query answers the version and not undefined. *)
Lemma timed_out_version_query_answers_token :
  version_query_timed_out Listing1 slow_host GstLaunch.constructor /\
  GstLaunch.getVersion Listing1 slow_host GstLaunch.constructor = Ok (JStr "1.20.3") /\
  GstLaunch.getVersion Listing1 slow_host GstLaunch.constructor <> Ok JUndefined.
Proof.
  split; [exists "/usr/bin/gst-launch-1.0"; split; reflexivity|].
  split; [reflexivity | discriminate].
Qed.

(** ** Instances of the conditional theorems *)

(** A machine without the executable: the query fails and construction
    throws. *)
Lemma version_failure_is_fatal_witness :
  version_query_failure Listing1 bare_host GstLaunch.constructor /\
  GstLaunch.isAvailable Listing1 bare_host GstLaunch.constructor = Ok false /\
  LiveCam.constructor Listing1 bare_host ready_config = Throw (Error "Unable to broadcast.").
Proof.
  assert (F : version_query_failure Listing1 bare_host GstLaunch.constructor).
  { apply (executable_absent _ _ _ JUndefined); [reflexivity | discriminate]. }
  split; [exact F|].
  exact (proj2 (version_failure_is_fatal Listing1 bare_host ready_config F)).
Defined.

(** A property the builder does not read leaves the command as it is. *)
Lemma command_pure_and_clausewise_witness :
  command Listing1 scenario_config (JStr "127.0.0.1") (JNum (Int 10000))
    = command Listing1 (set_prop "ui_port" (JNum (Int 11000)) scenario_config)
        (JStr "127.0.0.1") (JNum (Int 10000)).
Proof.
  refine (proj1 (command_pure_and_clausewise Listing1 scenario_config
                   (set_prop "ui_port" (JNum (Int 11000)) scenario_config)
                   (JStr "127.0.0.1") (JNum (Int 10000)) _)).
  intros k [<-|[<-|[<-|[<-|[<-|[]]]]]]; reflexivity.
Defined.

(** The scenario with and without a device index launches the same child. *)
Lemma deviceIndex_unused_witness :
  launch Listing1 linux_host scenario_config (JStr "127.0.0.1") (JNum (Int 10000))
    = launch Listing1 linux_host (set_prop "deviceIndex" (JNum (Int 2)) scenario_config)
        (JStr "127.0.0.1") (JNum (Int 10000)).
Proof.
  refine (proj2 (deviceIndex_unused Listing1 linux_host scenario_config
                   (set_prop "deviceIndex" (JNum (Int 2)) scenario_config)
                   (JStr "127.0.0.1") (JNum (Int 10000)) _)).
  intros k Hk. rewrite field_set_prop.
  destruct (String.eqb_spec k "deviceIndex"); [contradiction | reflexivity].
Defined.

(** A zero width is stored as 800 and a negative height is kept. *)
Lemma falsy_fields_take_defaults_witness :
  exists s,
    GstLiveCamServer.constructor Listing2 zero_config = Ok s /\
    GstLiveCamServer.width s = JNum (Int 800) /\
    GstLiveCamServer.height s = JNum (Int (-1)).
Proof.
  assert (Hw : absent_or_number (field zero_config "width")) by (right; eexists; reflexivity).
  assert (Hh : absent_or_number (field zero_config "height")) by (right; eexists; reflexivity).
  assert (Hf : absent_or_number (field zero_config "framerate")) by (right; eexists; reflexivity).
  destruct (falsy_fields_take_defaults Listing2 zero_config Hw Hh Hf) as (s & Hs & Hwidth & _).
  exists s. split; [exact Hs|]. split; [apply Hwidth; reflexivity|].
  vm_compute in Hs. injection Hs as <-. reflexivity.
Defined.


(** * Further properties of the code *)

(** ** Splitting the pipeline into arguments *)

Lemma split_not_nil (sep : ascii) (s : string) : split sep s <> [].
Proof.
  induction s as [|c s IH]; simpl; [discriminate|].
  destruct (Ascii.eqb c sep); [discriminate|].
  destruct (split sep s); [contradiction | discriminate].
Qed.

Lemma split_app_sep (sep : ascii) (a b : string) :
  split sep (a ++ String sep b) = (split sep a ++ split sep b)%list.
Proof.
  induction a as [|c a IH]; simpl.
  - now rewrite Ascii.eqb_refl.
  - destruct (Ascii.eqb c sep); [now rewrite IH|].
    rewrite IH. pose proof (split_not_nil sep a) as Hne.
    destruct (split sep a); [contradiction | reflexivity].
Qed.

Lemma concat_split (sep : ascii) (s : string) :
  String.concat (String sep "") (split sep s) = s.
Proof.
  induction s as [|c s IH]; simpl; [reflexivity|].
  destruct (Ascii.eqb_spec c sep) as [->|Hc].
  - pose proof (split_not_nil sep s) as Hne.
    cbn [String.concat]. destruct (split sep s) as [|x xs]; [contradiction|].
    simpl. simpl in IH. now rewrite IH.
  - pose proof (split_not_nil sep s) as Hne.
    destruct (split sep s) as [|x xs]; [contradiction|].
    simpl in *. destruct xs; simpl in *; now rewrite <- IH.
Qed.

Lemma split_pieces_clean (sep : ascii) (s : string) :
  Forall (fun piece => has_char sep piece = false) (split sep s).
Proof.
  induction s as [|c s IH]; simpl; [now repeat constructor|].
  destruct (Ascii.eqb_spec c sep) as [->|Hc].
  - constructor; [reflexivity | exact IH].
  - pose proof (split_not_nil sep s) as Hne.
    destruct (split sep s) as [|x xs]; [contradiction|].
    inversion IH as [|? ? Hx Hxs]; subst. constructor; [|exact Hxs].
    simpl. rewrite Hx. rewrite (Ascii.eqb_sym sep c).
    destruct (Ascii.eqb_spec c sep); [contradiction | reflexivity].
Qed.

(** ** Where the executable is looked for *)

Section Search.
Context `{Runtime}.

Lemma find_snoc {A : Type} (f : A -> bool) (xs : list A) (x : A) :
  find f (xs ++ [x])%list =
  match find f xs with
  | Some y => Some y
  | None => if f x then Some x else None
  end.
Proof.
  induction xs as [|y xs IH]; simpl; [reflexivity|].
  destruct (f y); [reflexivity | exact IH].
Qed.

Lemma scan1_last_match (h : host) (this : GstLaunch.t) (dirs : list string) (acc : jsval) :
  for_each (probe1 h this) dirs acc =
  Ok (match last_match h this dirs with
      | Some dir => JStr (candidate this dir)
      | None => acc
      end).
Proof.
  unfold last_match. revert acc. induction dirs as [|d dirs IH]; intros acc; [reflexivity|].
  cbn [for_each rev]. rewrite probe1_eq. cbn [bind]. rewrite IH, find_snoc.
  destruct (find _ (rev dirs)); [reflexivity|].
  now destruct (accessible h (candidate this d)).
Qed.

Lemma getPath1_eq (h : host) (this : GstLaunch.t) (PATH : string) :
  env h "PATH" = Some PATH ->
  GstLaunch.getPath Listing1 h this =
  Ok (match last_match h this (split ":" PATH) with
      | Some dir => JStr (candidate this dir)
      | None => JUndefined
      end).
Proof.
  intros HP. unfold GstLaunch.getPath, GstLaunch.getPath1, env_val. rewrite HP.
  cbn [split_val bind].
  change (for_each _ (split ":" PATH) JUndefined)
    with (for_each (probe1 h this) (split ":" PATH) JUndefined).
  now rewrite scan1_last_match.
Qed.

(** X1.  With PATH set, [getPath] of the first listing answers the
    candidate built from the last PATH entry whose candidate exists, and
    undefined when no entry has one. *)
Theorem getPath_first_listing_last_match (h : host) (this : GstLaunch.t) (PATH : string) :
  env h "PATH" = Some PATH ->
  GstLaunch.getPath Listing1 h this =
  Ok (match last_match h this (split ":" PATH) with
      | Some dir => JStr (candidate this dir)
      | None => JUndefined
      end).
Proof. apply getPath1_eq. Qed.

Lemma getPath1_unset (h : host) (this : GstLaunch.t) :
  env h "PATH" = None ->
  GstLaunch.getPath Listing1 h this
    = Throw (TypeError "Cannot read properties of undefined (reading 'split')").
Proof.
  intros HP. unfold GstLaunch.getPath, GstLaunch.getPath1, env_val. now rewrite HP.
Qed.

Lemma win32_root_falsy (h : host) : truthy (win32_root h) = false -> win32_root h = JUndefined.
Proof.
  unfold win32_root, js_and, js_or.
  destruct (truthy (env_val h "GSTREAMER_1_0_ROOT_X86_64")) eqn:E64;
    destruct (truthy (env_val h "GSTREAMER_1_0_ROOT_X86")) eqn:E32;
    rewrite ?E64, ?E32; try congruence.
  destruct (String.eqb (arch h) "x64"); [congruence|].
  destruct (String.eqb (arch h) "x32"); congruence.
Qed.

(** The second listing, branch by branch. *)
Lemma getPath2_cases (h : host) (this : GstLaunch.t) :
  GstLaunch.getPath Listing2 h this =
  if String.eqb (platform h) "win32" then
    if truthy (win32_root h) then
      let bin := Path_join [ToString (win32_root h); "bin";
                            GstLaunch.gst_launch_executable this ++ ".exe"] in
      Ok (if accessible h bin then JStr bin else JUndefined)
    else blind_scan h
  else if String.eqb (platform h) "linux" then blind_scan h
  else if String.eqb (platform h) "darwin" then
    Ok (if accessible h "/usr/local/bin/gst-launch-1.0"
        then JStr "/usr/local/bin/gst-launch-1.0" else JUndefined)
  else Ok JUndefined.
Proof.
  unfold GstLaunch.getPath, GstLaunch.getPath2, blind_scan.
  fold (win32_root h).
  destruct (String.eqb (platform h) "win32").
  - change (truthy
              (if truthy (js_or (env_val h "GSTREAMER_1_0_ROOT_X86_64")
                                (env_val h "GSTREAMER_1_0_ROOT_X86"))
               then
                 if truthy (js_and (env_val h "GSTREAMER_1_0_ROOT_X86_64")
                                   (env_val h "GSTREAMER_1_0_ROOT_X86"))
                 then
                   if String.eqb (arch h) "x64" then env_val h "GSTREAMER_1_0_ROOT_X86_64"
                   else if String.eqb (arch h) "x32" then env_val h "GSTREAMER_1_0_ROOT_X86"
                   else JUndefined
                 else js_or (env_val h "GSTREAMER_1_0_ROOT_X86_64")
                            (env_val h "GSTREAMER_1_0_ROOT_X86")
               else JUndefined)) with (truthy (win32_root h)).
    destruct (truthy (win32_root h)) eqn:Hroot.
    + cbv zeta. unfold accessSync.
      change (if truthy (js_or (env_val h "GSTREAMER_1_0_ROOT_X86_64")
                               (env_val h "GSTREAMER_1_0_ROOT_X86"))
              then
                if truthy (js_and (env_val h "GSTREAMER_1_0_ROOT_X86_64")
                                  (env_val h "GSTREAMER_1_0_ROOT_X86"))
                then
                  if String.eqb (arch h) "x64" then env_val h "GSTREAMER_1_0_ROOT_X86_64"
                  else if String.eqb (arch h) "x32" then env_val h "GSTREAMER_1_0_ROOT_X86"
                  else JUndefined
                else js_or (env_val h "GSTREAMER_1_0_ROOT_X86_64")
                           (env_val h "GSTREAMER_1_0_ROOT_X86")
              else JUndefined) with (win32_root h).
      now destruct (accessible h _).
    + apply win32_root_falsy in Hroot.
      unfold env_val at 1. destruct (env h "PATH") as [P|]; [|reflexivity].
      cbn [split_val bind]. rewrite Hroot.
      induction (split ";" P) as [|d dirs IH]; [reflexivity | exact IH].
  - destruct (String.eqb (platform h) "linux").
    + unfold env_val. destruct (env h "PATH") as [P|]; [|reflexivity].
      cbn [split_val bind].
      induction (split ":" P) as [|d dirs IH]; [reflexivity | exact IH].
    + destruct (String.eqb (platform h) "darwin"); [|reflexivity].
      cbv zeta. unfold accessSync. now destruct (accessible h _).
Qed.
Lemma win32_root_truthy (h : host) :
  truthy (win32_root h) = true ->
  exists root,
    win32_root h = JStr root /\
    (env h "GSTREAMER_1_0_ROOT_X86_64" = Some root \/ env h "GSTREAMER_1_0_ROOT_X86" = Some root).
Proof.
  unfold win32_root, js_and, js_or, env_val.
  destruct (env h "GSTREAMER_1_0_ROOT_X86_64") as [a|];
    destruct (env h "GSTREAMER_1_0_ROOT_X86") as [b|]; cbn [truthy];
    repeat match goal with
           | |- context [if ?c then _ else _] => destruct c
           end; cbn [truthy]; try discriminate; intros _; eauto.
Qed.

Lemma getPath_existing (l : listing) (h : host) (this : GstLaunch.t) (path : string) :
  GstLaunch.getPath l h this = Ok (JStr path) -> accessible h path = true.
Proof.
  destruct l.
  - destruct (env h "PATH") as [P|] eqn:HP.
    + rewrite (getPath1_eq h this P HP). unfold last_match.
      destruct (find _ _) as [d|] eqn:Hf; [|discriminate].
      intros E; injection E as <-. now apply find_some in Hf.
    + now rewrite (getPath1_unset h this HP).
  - rewrite getPath2_cases. unfold blind_scan.
    repeat match goal with
           | |- context [if ?c then _ else _] => destruct c eqn:?
           | |- context [match env h "PATH" with _ => _ end] => destruct (env h "PATH")
           end; cbv zeta; try discriminate;
      intros E; injection E as <-; assumption.
Qed.

(** X2.  In both listings a path answered by [getPath] is a file that
    exists on the host. *)
Theorem getPath_answers_existing_file (l : listing) (h : host) (this : GstLaunch.t)
        (path : string) :
  GstLaunch.getPath l h this = Ok (JStr path) -> accessible h path = true.
Proof. apply getPath_existing. Qed.

(** X3.  In the second listing a path answered by [getPath] never comes
    from PATH: it is the executable under one of the two installation roots
    of the environment, on win32, or the fixed path, on darwin. *)
Theorem getPath_second_listing_sources (h : host) (this : GstLaunch.t) (path : string) :
  GstLaunch.getPath Listing2 h this = Ok (JStr path) ->
  (platform h = "win32" /\
   exists root,
     (env h "GSTREAMER_1_0_ROOT_X86_64" = Some root \/ env h "GSTREAMER_1_0_ROOT_X86" = Some root) /\
     path = Path_join [root; "bin"; GstLaunch.gst_launch_executable this ++ ".exe"]) \/
  (platform h = "darwin" /\ path = "/usr/local/bin/gst-launch-1.0").
Proof.
  rewrite getPath2_cases. unfold blind_scan.
  destruct (String.eqb_spec (platform h) "win32") as [Hw|_].
  - destruct (truthy (win32_root h)) eqn:Hroot.
    + destruct (win32_root_truthy h Hroot) as (root & -> & Henv). cbv zeta. cbn [ToString].
      destruct (accessible h _); [|discriminate].
      intros E; injection E as <-. left. split; [exact Hw|]. now exists root.
    + destruct (env h "PATH"); discriminate.
  - destruct (String.eqb (platform h) "linux"); [destruct (env h "PATH"); discriminate|].
    destruct (String.eqb_spec (platform h) "darwin") as [Hd|_]; [|discriminate].
    destruct (accessible h _); [|discriminate].
    intros E; injection E as <-. now right.
Qed.
End Search.

(** ** Availability and launching *)

Section Launching.
Context `{Runtime}.

Lemma isAvailable_true (l : listing) (h : host) (this : GstLaunch.t) (tok : string) :
  version_output_matches l h this tok -> GstLaunch.isAvailable l h this = Ok true.
Proof.
  intros Hok. unfold GstLaunch.isAvailable. now rewrite (getVersion_success _ _ _ _ Hok).
Qed.

Lemma isAvailable_false (l : listing) (h : host) (this : GstLaunch.t) :
  version_query_failure l h this -> GstLaunch.isAvailable l h this = Ok false.
Proof.
  intros Hfail. unfold GstLaunch.isAvailable. now rewrite (getVersion_failure _ _ _ Hfail).
Qed.

Lemma isAvailable_true_inv (l : listing) (h : host) (this : GstLaunch.t) :
  GstLaunch.isAvailable l h this = Ok true -> exists tok, version_output_matches l h this tok.
Proof.
  intros Ha. destruct (version_query_outcome l h this) as [Hfail|Hok]; [|exact Hok].
  rewrite (isAvailable_false _ _ _ Hfail) in Ha. discriminate.
Qed.

Lemma isAvailable_false_inv (l : listing) (h : host) (this : GstLaunch.t) :
  GstLaunch.isAvailable l h this = Ok false -> version_query_failure l h this.
Proof.
  intros Ha. destruct (version_query_outcome l h this) as [Hfail|[tok Hok]]; [exact Hfail|].
  rewrite (isAvailable_true _ _ _ _ Hok) in Ha. discriminate.
Qed.

Lemma isAvailable_total (l : listing) (h : host) (this : GstLaunch.t) :
  exists b, GstLaunch.isAvailable l h this = Ok b.
Proof.
  destruct (version_query_outcome l h this) as [Hfail|[tok Hok]].
  - exists false. now apply isAvailable_false.
  - exists true. now apply (isAvailable_true _ _ _ tok).
Qed.

Lemma spawnPipeline_available (l : listing) (h : host) (this : GstLaunch.t)
      (pipeline path : string) :
  GstLaunch.isAvailable l h this = Ok true ->
  GstLaunch.getPath l h this = Ok (JStr path) ->
  GstLaunch.spawnPipeline l h this pipeline
    = Ok {| spawn_file := path; spawn_args := split " " pipeline |}.
Proof.
  intros Ha Hp. unfold GstLaunch.spawnPipeline.
  rewrite Assert_ok_typeof; cbn [bind]. rewrite Ha; cbn [bind Assert_ok truthy].
  rewrite Hp; cbn [bind]. now rewrite Assert_ok_typeof.
Qed.

Lemma spawnPipeline_unavailable (l : listing) (h : host) (this : GstLaunch.t)
      (pipeline : string) :
  GstLaunch.isAvailable l h this = Ok false ->
  GstLaunch.spawnPipeline l h this pipeline
    = Throw (AssertionError "gst-launch is not available.").
Proof.
  intros Ha. unfold GstLaunch.spawnPipeline.
  rewrite Assert_ok_typeof; cbn [bind]. now rewrite Ha.
Qed.

Lemma start_available (l : listing) (h : host) (s : GstLiveCamServer.t)
      (tcp_addr tcp_port : jsval) (path : string) :
  GstLaunch.isAvailable l h GstLaunch.constructor = Ok true ->
  GstLaunch.getPath l h GstLaunch.constructor = Ok (JStr path) ->
  GstLiveCamServer.start l h s tcp_addr tcp_port
    = Ok {| spawn_file := path;
            spawn_args := split " " (GstLiveCamServer.cam_pipeline s tcp_addr tcp_port) |}.
Proof.
  intros Ha Hp. unfold GstLiveCamServer.start.
  rewrite !Assert_ok_typeof; cbn [bind]. rewrite Ha; cbn [bind]. rewrite Hp; cbn [bind].
  destruct (isAvailable_true_inv _ _ _ Ha) as [tok Hok].
  rewrite (getVersion_success _ _ _ _ Hok); cbn [bind].
  now apply spawnPipeline_available.
Qed.

Lemma start_unavailable (l : listing) (h : host) (s : GstLiveCamServer.t)
      (tcp_addr tcp_port : jsval) :
  GstLaunch.isAvailable l h GstLaunch.constructor = Ok false ->
  GstLiveCamServer.start l h s tcp_addr tcp_port = Throw (Error "GstLaunch not found.").
Proof.
  intros Ha. unfold GstLiveCamServer.start.
  rewrite !Assert_ok_typeof; cbn [bind]. now rewrite Ha.
Qed.

Lemma available_path (l : listing) (h : host) (this : GstLaunch.t) :
  GstLaunch.isAvailable l h this = Ok true ->
  exists path, GstLaunch.getPath l h this = Ok (JStr path).
Proof.
  intros Ha. destruct (isAvailable_true_inv _ _ _ Ha) as (tok & path & text & m & Hp & _).
  now exists path.
Qed.

(** X4.  [spawnPipeline] either raises the assertion "gst-launch is not
    available." (when [isAvailable] is false) or starts the executable that
    [getPath] answers with the pipeline split at every space; nothing else
    can happen. *)
Theorem spawnPipeline_outcome (l : listing) (h : host) (this : GstLaunch.t)
        (pipeline : string) :
  (GstLaunch.isAvailable l h this = Ok false /\
   GstLaunch.spawnPipeline l h this pipeline
     = Throw (AssertionError "gst-launch is not available.")) \/
  (GstLaunch.isAvailable l h this = Ok true /\
   exists path,
     GstLaunch.getPath l h this = Ok (JStr path) /\
     GstLaunch.spawnPipeline l h this pipeline
       = Ok {| spawn_file := path; spawn_args := split " " pipeline |}).
Proof.
  destruct (isAvailable_total l h this) as [[|] Ha].
  - right. split; [exact Ha|].
    destruct (available_path _ _ _ Ha) as [path Hp].
    exists path. split; [exact Hp | now apply spawnPipeline_available].
  - left. split; [exact Ha | now apply spawnPipeline_unavailable].
Qed.

(** X5.  [start] either throws "GstLaunch not found." (when the tool is
    unavailable) or answers the child process of the executable found by
    [getPath], with the command string split at every space as its
    arguments; the assertion inside [spawnPipeline] is never the one that
    fires. *)
Theorem start_outcome (l : listing) (h : host) (s : GstLiveCamServer.t)
        (tcp_addr tcp_port : jsval) :
  (GstLaunch.isAvailable l h GstLaunch.constructor = Ok false /\
   GstLiveCamServer.start l h s tcp_addr tcp_port = Throw (Error "GstLaunch not found.")) \/
  (GstLaunch.isAvailable l h GstLaunch.constructor = Ok true /\
   exists path,
     GstLaunch.getPath l h GstLaunch.constructor = Ok (JStr path) /\
     GstLiveCamServer.start l h s tcp_addr tcp_port
       = Ok {| spawn_file := path;
               spawn_args := split " " (GstLiveCamServer.cam_pipeline s tcp_addr tcp_port) |}).
Proof.
  destruct (isAvailable_total l h GstLaunch.constructor) as [[|] Ha].
  - right. split; [exact Ha|].
    destruct (available_path _ _ _ Ha) as [path Hp].
    exists path. split; [exact Hp | now apply start_available].
  - left. split; [exact Ha | now apply start_unavailable].
Qed.

Lemma cam_pipeline_split (s : GstLiveCamServer.t) (tcp_addr tcp_port : jsval) :
  split " " (GstLiveCamServer.cam_pipeline s tcp_addr tcp_port) =
  (split " " (GstLiveCamServer.gst_video_src s ++ " ! jpegenc ! multipartmux")
   ++ "" :: split " " ("boundary=" ++ dquote ++ GstLiveCamServer.gst_multipart_boundary s
                         ++ dquote ++ " ! tcpserversink host=" ++ ToString tcp_addr
                         ++ " port=" ++ ToString tcp_port))%list.
Proof.
  unfold GstLiveCamServer.cam_pipeline.
  change (" ! jpegenc ! multipartmux  boundary=" ++ dquote
            ++ GstLiveCamServer.gst_multipart_boundary s ++ dquote ++ " ! tcpserversink host="
            ++ ToString tcp_addr ++ " port=" ++ ToString tcp_port)
    with (" ! jpegenc ! multipartmux"
            ++ String " " (String " " ("boundary=" ++ dquote
                 ++ GstLiveCamServer.gst_multipart_boundary s ++ dquote
                 ++ " ! tcpserversink host=" ++ ToString tcp_addr
                 ++ " port=" ++ ToString tcp_port))).
  rewrite <- append_assoc, split_app_sep.
  f_equal.
Qed.

(** X6.  When [start] answers a child process, its arguments joined by
    single spaces give back the command string; no argument holds a space;
    the executable is a file that exists; and, because the command string
    has two spaces in a row before [boundary=], one of the arguments is
    the empty string. *)
Theorem start_arguments (l : listing) (h : host) (s : GstLiveCamServer.t)
        (tcp_addr tcp_port : jsval) (child : child_process) :
  GstLiveCamServer.start l h s tcp_addr tcp_port = Ok child ->
  String.concat " " (spawn_args child) = GstLiveCamServer.cam_pipeline s tcp_addr tcp_port /\
  Forall (fun arg => has_char " " arg = false) (spawn_args child) /\
  In "" (spawn_args child) /\
  accessible h (spawn_file child) = true.
Proof.
  intros Hstart.
  destruct (isAvailable_total l h GstLaunch.constructor) as [[|] Ha].
  - destruct (available_path _ _ _ Ha) as [path Hp].
    rewrite (start_available l h s tcp_addr tcp_port path Ha Hp) in Hstart.
    injection Hstart as <-. cbn [spawn_args spawn_file].
    split; [apply concat_split|]. split; [apply split_pieces_clean|].
    split; [|now apply (getPath_existing l h GstLaunch.constructor)].
    rewrite cam_pipeline_split. apply in_or_app. right. now left.
  - rewrite (start_unavailable l h s tcp_addr tcp_port Ha) in Hstart. discriminate.
Qed.

(** X7.  With no PATH in the environment [getPath] of the first listing
    raises a TypeError; [getVersion] absorbs it and answers undefined, so
    the tool counts as unavailable: [spawnPipeline] raises its assertion,
    [start] throws "GstLaunch not found." and the orchestrator cannot be
    constructed. *)
Theorem unset_PATH_means_unavailable (h : host) (s : GstLiveCamServer.t)
        (config tcp_addr tcp_port : jsval) (pipeline : string) :
  env h "PATH" = None ->
  GstLaunch.getPath Listing1 h GstLaunch.constructor
    = Throw (TypeError "Cannot read properties of undefined (reading 'split')") /\
  GstLaunch.getVersion Listing1 h GstLaunch.constructor = Ok JUndefined /\
  GstLaunch.isAvailable Listing1 h GstLaunch.constructor = Ok false /\
  GstLaunch.spawnPipeline Listing1 h GstLaunch.constructor pipeline
    = Throw (AssertionError "gst-launch is not available.") /\
  GstLiveCamServer.start Listing1 h s tcp_addr tcp_port = Throw (Error "GstLaunch not found.") /\
  LiveCam.constructor Listing1 h config = Throw (Error "Unable to broadcast.").
Proof.
  intros HP. pose proof (getPath1_unset h GstLaunch.constructor HP) as Hp.
  assert (Hfail : version_query_failure Listing1 h GstLaunch.constructor)
    by exact (path_search_raises _ _ _ _ Hp).
  pose proof (isAvailable_false _ _ _ Hfail) as Ha.
  split; [exact Hp|]. split; [now apply getVersion_failure|]. split; [exact Ha|].
  split; [now apply spawnPipeline_unavailable|].
  split; [now apply start_unavailable | now apply LiveCam_constructor_unavailable].
Qed.

(** X8.  On Linux the second listing never finds the executable, whatever
    the host holds: the tool counts as unavailable, [start] throws
    "GstLaunch not found." and the orchestrator cannot be constructed. *)
Theorem second_listing_unusable_on_linux (h : host) (s : GstLiveCamServer.t)
        (config tcp_addr tcp_port : jsval) :
  platform h = "linux" ->
  GstLaunch.isAvailable Listing2 h GstLaunch.constructor = Ok false /\
  GstLiveCamServer.start Listing2 h s tcp_addr tcp_port = Throw (Error "GstLaunch not found.") /\
  LiveCam.constructor Listing2 h config = Throw (Error "Unable to broadcast.").
Proof.
  intros Hlinux.
  assert (Hfail : version_query_failure Listing2 h GstLaunch.constructor).
  { pose proof (getPath2_cases h GstLaunch.constructor) as Hp.
    rewrite Hlinux in Hp. cbn [String.eqb Ascii.eqb Bool.eqb] in Hp. unfold blind_scan in Hp.
    destruct (env h "PATH").
    - apply (executable_absent _ _ _ _ Hp). discriminate.
    - exact (path_search_raises _ _ _ _ Hp). }
  pose proof (isAvailable_false _ _ _ Hfail) as Ha.
  split; [exact Ha|].
  split; [now apply start_unavailable | now apply LiveCam_constructor_unavailable].
Qed.
End Launching.

(** ** The version token *)

Lemma all_chars_app (f : ascii -> bool) (a b : string) :
  all_chars f (a ++ b) = all_chars f a && all_chars f b.
Proof. induction a as [|c a IH]; simpl; [reflexivity | now rewrite IH, andb_assoc]. Qed.

Lemma all_chars_takeWhile (f : ascii -> bool) (s : string) : all_chars f (takeWhile f s) = true.
Proof.
  induction s as [|c s IH]; simpl; [reflexivity|].
  destruct (f c) eqn:E; simpl; [now rewrite E | reflexivity].
Qed.

Lemma all_chars_dropWhile (f g : ascii -> bool) (s : string) :
  all_chars f s = true -> all_chars f (dropWhile g s) = true.
Proof.
  induction s as [|c s IH]; simpl; [reflexivity|].
  intros Hs. apply andb_true_iff in Hs. destruct Hs as [Hc Hs].
  destruct (g c); [now apply IH | simpl; now rewrite Hc, Hs].
Qed.

Lemma head_dropWhile (f : ascii -> bool) (s : string) : head_is f (dropWhile f s) = false.
Proof.
  induction s as [|c s IH]; simpl; [reflexivity|].
  destruct (f c) eqn:E; [exact IH | simpl; exact E].
Qed.

Lemma dropWhile_all (f : ascii -> bool) (a b : string) :
  all_chars f a = true -> dropWhile f (a ++ b) = dropWhile f b.
Proof.
  induction a as [|c a IH]; simpl; [reflexivity|].
  intros Ha. apply andb_true_iff in Ha. destruct Ha as [Hc Ha]. rewrite Hc. now apply IH.
Qed.

Lemma take_blank (f : ascii -> bool) (k : nat) (r : string) :
  (k <= String.length (takeWhile f r))%nat -> all_chars f (take k r) = true.
Proof.
  revert r; induction k as [|k IH]; intros r Hk; [reflexivity|].
  destruct r as [|c r]; [reflexivity|]. simpl in *.
  destruct (f c); simpl in Hk; [|lia].
  simpl. apply IH. lia.
Qed.

Lemma take_nonempty (f : ascii -> bool) (k : nat) (r : string) :
  (S k <= String.length (takeWhile f r))%nat ->
  exists c rest, take (S k) r = String c rest /\ f c = true.
Proof.
  intros Hk. destruct r as [|c r]; simpl in *; [lia|].
  destruct (f c) eqn:E; simpl in Hk; [|lia]. now exists c, (take k r).
Qed.

Lemma backtrack_S (k : nat) (r : string) :
  backtrack (S k) r =
  match takeWhile (fun c => negb (isLineTerminator c)) (drop (S k) r) with
  | EmptyString => backtrack k r
  | String b body => Some ("GStreamer" ++ take (S k) r ++ String b body)
  end.
Proof. reflexivity. Qed.

(** The shape of a match of the version pattern: the word, one blank or
    more, then a non-empty run without line terminators. *)
Lemma backtrack_shape (k : nat) (r m : string) :
  (k <= String.length (takeWhile isWhiteSpace r))%nat ->
  backtrack k r = Some m ->
  exists c blanks body,
    m = "GStreamer" ++ String c blanks ++ body /\
    isWhiteSpace c = true /\ all_chars isWhiteSpace blanks = true /\
    all_chars (fun x => negb (isLineTerminator x)) body = true.
Proof.
  induction k as [|k IH]; intros Hk Hm; [discriminate|].
  rewrite backtrack_S in Hm.
  destruct (takeWhile (fun c => negb (isLineTerminator c)) (drop (S k) r)) as [|b body] eqn:Hb.
  - apply IH; [lia | exact Hm].
  - assert (Em : m = "GStreamer" ++ take (S k) r ++ String b body)
      by (injection Hm as Em; symmetry; exact Em).
    clear Hm IH. subst m.
    destruct (take_nonempty isWhiteSpace k r Hk) as (c & rest & Ht & Hc).
    pose proof (take_blank isWhiteSpace (S k) r Hk) as Hall.
    rewrite Ht in Hall |- *. simpl in Hall. rewrite Hc in Hall. simpl in Hall.
    exists c, rest, (String b body). repeat split; auto.
    rewrite <- Hb. apply all_chars_takeWhile.
Qed.

Lemma regex_version_first_shape (s m : string) :
  regex_version_first s = Some m ->
  exists c blanks body,
    m = "GStreamer" ++ String c blanks ++ body /\
    isWhiteSpace c = true /\ all_chars isWhiteSpace blanks = true /\
    all_chars (fun x => negb (isLineTerminator x)) body = true.
Proof.
  assert (Hhere : forall t, regex_version_here t = Some m ->
            exists c blanks body,
              m = "GStreamer" ++ String c blanks ++ body /\
              isWhiteSpace c = true /\ all_chars isWhiteSpace blanks = true /\
              all_chars (fun x => negb (isLineTerminator x)) body = true).
  { intros t. unfold regex_version_here.
    destruct (strip_prefix "GStreamer" t) as [r|]; [|discriminate].
    apply backtrack_shape. lia. }
  induction s as [|x s IH]; intros Hm.
  - cbn [regex_version_first] in Hm.
    destruct (regex_version_here "") eqn:E; [|discriminate].
    injection Hm as ->. now apply (Hhere "").
  - cbn [regex_version_first] in Hm.
    destruct (regex_version_here (String x s)) eqn:E.
    + injection Hm as ->. now apply (Hhere (String x s)).
    + now apply IH.
Qed.

Lemma replace_version_prefix_match (c : ascii) (blanks body : string) :
  isWhiteSpace c = true -> all_chars isWhiteSpace blanks = true ->
  replace_version_prefix ("GStreamer" ++ String c blanks ++ body)
    = dropWhile isWhiteSpace body.
Proof.
  intros Hc Hb.
  change ("GStreamer" ++ String c blanks ++ body)
    with (String "G" ("Streamer" ++ String c (blanks ++ body))).
  cbn [replace_version_prefix strip_prefix append Ascii.eqb Bool.eqb].
  rewrite Hc. now apply dropWhile_all.
Qed.

Lemma includes_suffix (s t needle : string) :
  includes t needle = true -> includes (s ++ t) needle = true.
Proof.
  induction s as [|x s IH]; simpl; intros Ht; [exact Ht|].
  apply orb_true_iff. right. now apply IH.
Qed.

Lemma takeWhile_stop (f : ascii -> bool) (a b : string) (x : ascii) :
  all_chars f a = true -> f x = false -> takeWhile f (a ++ String x b) = a.
Proof.
  intros Ha Hx. induction a as [|c a IH]; simpl in *; [now rewrite Hx|].
  apply andb_true_iff in Ha. destruct Ha as [Hc Ha]. rewrite Hc. now rewrite IH.
Qed.

Lemma regex_version_skip (pre s : string) :
  has_char "G" pre = false -> regex_version_first (pre ++ s) = regex_version_first s.
Proof.
  induction pre as [|c pre IH]; intros Hpre; [reflexivity|].
  cbn [has_char] in Hpre. apply orb_false_iff in Hpre. destruct Hpre as [Hc Hpre].
  change (String c pre ++ s) with (String c (pre ++ s)).
  cbn [regex_version_first]. unfold regex_version_here at 1. cbn [strip_prefix].
  rewrite Hc. now apply IH.
Qed.

Lemma regex_version_line (ver post : string) :
  head_is (fun c => negb (isWhiteSpace c)) ver = true ->
  all_chars (fun c => negb (isLineTerminator c)) ver = true ->
  regex_version_first ("GStreamer " ++ ver ++ LF ++ post) = Some ("GStreamer " ++ ver).
Proof.
  intros Hhead Hline.
  destruct ver as [|v ver]; [discriminate|]. cbn [head_is] in Hhead.
  apply negb_true_iff in Hhead.
  assert (Hhere : regex_version_here ("GStreamer " ++ String v ver ++ LF ++ post)
                  = Some ("GStreamer " ++ String v ver)).
  { unfold regex_version_here.
    change (strip_prefix "GStreamer" ("GStreamer " ++ String v ver ++ LF ++ post))
      with (Some (String " " (String v (ver ++ LF ++ post)))).
    cbn [takeWhile]. change (isWhiteSpace " ") with true. cbn iota. rewrite Hhead.
    cbn [String.length]. rewrite backtrack_S. cbn [drop].
    change (String v (ver ++ LF ++ post))
      with (String v ver ++ String (ascii_of_nat 10) post).
    rewrite (takeWhile_stop _ (String v ver) post (ascii_of_nat 10) Hline eq_refl).
    reflexivity. }
  destruct post as [|x post].
  - change ("GStreamer " ++ String v ver ++ LF ++ "")
      with (String "G" ("Streamer " ++ String v ver ++ LF ++ "")) in *.
    cbn [regex_version_first]. now rewrite Hhere.
  - change ("GStreamer " ++ String v ver ++ LF ++ String x post)
      with (String "G" ("Streamer " ++ String v ver ++ LF ++ String x post)) in *.
    cbn [regex_version_first]. now rewrite Hhere.
Qed.

Section VersionToken.
Context `{Runtime}.

(** X10.  When the output of the version query has no G before a line
    [GStreamer v], where [v] does not begin with a blank, [getVersion]
    answers [v] and the tool counts as available. *)
Theorem version_read_from_banner (l : listing) (h : host) (this : GstLaunch.t)
        (path pre ver post : string) :
  GstLaunch.getPath l h this = Ok (JStr path) ->
  run_sync h path [GstLaunch.gst_launch_versionarg this]
    = Ok (Some (pre ++ "GStreamer " ++ ver ++ LF ++ post)) ->
  has_char "G" pre = false ->
  head_is (fun c => negb (isWhiteSpace c)) ver = true ->
  all_chars (fun c => negb (isLineTerminator c)) ver = true ->
  GstLaunch.getVersion l h this = Ok (JStr ver) /\
  GstLaunch.isAvailable l h this = Ok true.
Proof.
  intros Hp Hr Hpre Hhead Hline.
  assert (Hok : version_output_matches l h this ver).
  { exists path, (pre ++ "GStreamer " ++ ver ++ LF ++ post), ("GStreamer " ++ ver).
    split; [exact Hp|]. split; [exact Hr|]. split; [|split].
    - apply includes_suffix. apply (includes_app_l "GStreamer"). reflexivity.
    - rewrite regex_version_skip by exact Hpre. now apply regex_version_line.
    - destruct ver as [|v ver]; [discriminate|]. cbn [head_is] in Hhead.
      apply negb_true_iff in Hhead.
      change ("GStreamer " ++ String v ver) with ("GStreamer" ++ String " " "" ++ String v ver).
      rewrite replace_version_prefix_match by reflexivity.
      cbn [dropWhile]. now rewrite Hhead. }
  split; [now apply getVersion_success|].
  unfold GstLaunch.isAvailable. now rewrite (getVersion_success _ _ _ _ Hok).
Qed.

(** The outcome of the version query for an output that holds the banner
    line. *)
Lemma banner_output_matches (l : listing) (h : host) (this : GstLaunch.t)
      (path pre ver post : string) :
  GstLaunch.getPath l h this = Ok (JStr path) ->
  run_sync h path [GstLaunch.gst_launch_versionarg this]
    = Ok (Some (pre ++ "GStreamer " ++ ver ++ LF ++ post)) ->
  has_char "G" pre = false ->
  head_is (fun c => negb (isWhiteSpace c)) ver = true ->
  all_chars (fun c => negb (isLineTerminator c)) ver = true ->
  version_output_matches l h this ver.
Proof.
  intros Hp Hr Hpre Hhead Hline.
  exists path, (pre ++ "GStreamer " ++ ver ++ LF ++ post), ("GStreamer " ++ ver).
  split; [exact Hp|]. split; [exact Hr|]. split; [|split].
  - apply includes_suffix. apply (includes_app_l "GStreamer"). reflexivity.
  - rewrite regex_version_skip by exact Hpre. now apply regex_version_line.
  - destruct ver as [|v ver]; [discriminate|]. cbn [head_is] in Hhead.
    apply negb_true_iff in Hhead.
    change ("GStreamer " ++ String v ver) with ("GStreamer" ++ String " " "" ++ String v ver).
    rewrite replace_version_prefix_match by reflexivity.
    cbn [dropWhile]. now rewrite Hhead.
Qed.

(** The version query reads nothing of the host but what [same_but_timeout]
    keeps. *)
Lemma getVersion_same_but_timeout (l : listing) (h h' : host) (this : GstLaunch.t) :
  same_but_timeout h h' ->
  GstLaunch.getVersion l h' this = GstLaunch.getVersion l h this.
Proof.
  destruct h as [p a e acc run t], h' as [p' a' e' acc' run' t'].
  unfold same_but_timeout. cbn [platform arch env accessible run_sync].
  intros (<- & <- & <- & <- & <-). destruct l; reflexivity.
Qed.

(** C6.  [getVersion] never raises: on every host it returns a value,
    which is undefined or a string.  It is a string exactly when the
    captured output of the subprocess matches, and then it is the token
    extracted from the output; it is undefined exactly when the search for
    the executable raises or finds nothing, the subprocess call raises, no
    output was captured, or the captured output does not hold the version
    text.  An output with no G before a line [GStreamer v], where [v] does
    not begin with a blank, gives [v].  Whether the child was ended by the
    timeout changes nothing: a timeout gives undefined only when what was
    captured before it is missing or does not match. *)
Theorem getVersion_never_throws (l : listing) (h : host) (this : GstLaunch.t) :
  (exists v,
    GstLaunch.getVersion l h this = Ok v /\
    (v = JUndefined \/ exists tok, v = JStr tok) /\
    (forall tok, v = JStr tok <-> version_output_matches l h this tok) /\
    (v = JUndefined <-> version_query_failure l h this)) /\
  (forall path pre ver post,
    GstLaunch.getPath l h this = Ok (JStr path) ->
    run_sync h path [GstLaunch.gst_launch_versionarg this]
      = Ok (Some (pre ++ "GStreamer " ++ ver ++ LF ++ post)) ->
    has_char "G" pre = false ->
    head_is (fun c => negb (isWhiteSpace c)) ver = true ->
    all_chars (fun c => negb (isLineTerminator c)) ver = true ->
    GstLaunch.getVersion l h this = Ok (JStr ver)) /\
  (forall h', same_but_timeout h h' ->
    GstLaunch.getVersion l h' this = GstLaunch.getVersion l h this).
Proof.
  split; [|split].
  - destruct (version_query_outcome l h this) as [Hfail|[tok Hok]].
    + exists JUndefined. split; [now apply getVersion_failure|].
      split; [now left|]. split; [|tauto].
      intros tok; split; [discriminate|].
      intros Hok. apply getVersion_success in Hok.
      rewrite (getVersion_failure _ _ _ Hfail) in Hok. discriminate.
    + exists (JStr tok). split; [now apply getVersion_success|].
      split; [right; now exists tok|]. split.
      * intros tok'; split.
        -- intros E; injection E as <-. exact Hok.
        -- intros Hok'. apply getVersion_success in Hok, Hok'. congruence.
      * split; [discriminate|].
        intros Hfail. apply getVersion_failure in Hfail.
        apply getVersion_success in Hok. congruence.
  - intros path pre ver post Hp Hr Hpre Hhead Hline.
    apply getVersion_success. now apply (banner_output_matches l h this path pre ver post).
  - intros h'. apply getVersion_same_but_timeout.
Qed.

(** X9.  A version that [getVersion] answers holds no line terminator and
    does not begin with a blank: it is one line of the output, or the end
    of one. *)
Theorem version_token_is_one_line (l : listing) (h : host) (this : GstLaunch.t) (tok : string) :
  GstLaunch.getVersion l h this = Ok (JStr tok) ->
  all_chars (fun c => negb (isLineTerminator c)) tok = true /\
  head_is isWhiteSpace tok = false.
Proof.
  intros Hv.
  destruct (version_query_outcome l h this) as [Hfail|[tok' Hok]].
  - rewrite (getVersion_failure _ _ _ Hfail) in Hv. discriminate.
  - pose proof (getVersion_success _ _ _ _ Hok) as Hv'.
    rewrite Hv in Hv'. injection Hv' as <-.
    destruct Hok as (path & text & m & _ & _ & _ & Hm & ->).
    destruct (regex_version_first_shape _ _ Hm) as (c & blanks & body & -> & Hc & Hb & Hbody).
    rewrite (replace_version_prefix_match c blanks body Hc Hb).
    split; [now apply all_chars_dropWhile | apply head_dropWhile].
Qed.
End VersionToken.

(** ** The orchestrator, further *)

Section Orchestrator.
Context `{Runtime}.

Lemma LiveCam_constructor_ok_inv (l : listing) (h : host) (config : jsval) (o : LiveCam.t) :
  LiveCam.constructor l h config = Ok o ->
  GstLaunch.isAvailable l h GstLaunch.constructor = Ok true.
Proof.
  intros Ho. destruct (isAvailable_total l h GstLaunch.constructor) as [[|] Ha]; [exact Ha|].
  rewrite (LiveCam_constructor_unavailable l h config Ha) in Ho. discriminate.
Qed.

Lemma LiveCam_constructor_fields (l : listing) (h : host) (config config' : jsval) :
  (forall k, In k ["gst_addr"; "gst_port"; "ui_addr"; "ui_port"; "broadcast_addr";
                   "broadcast_port"; "start"; "webcam"] ->
             field config k = field config' k) ->
  LiveCam.constructor l h config = LiveCam.constructor l h config'.
Proof.
  intros Hsame. destruct (isAvailable_total l h GstLaunch.constructor) as [[|] Ha].
  - rewrite !(LiveCam_constructor_available l h _ Ha).
    rewrite <- !Hsame by (simpl; tauto). reflexivity.
  - now rewrite !(LiveCam_constructor_unavailable l h _ Ha).
Qed.

(** X11.  The option names [gst_tcp_addr] and [gst_tcp_port], which the
    comment above the class documents, are not read: setting them changes
    nothing.  Address and port of the pipeline's TCP sink come from
    [gst_addr] and [gst_port]; a non-zero [gst_port] is stored as given. *)
Theorem documented_sink_options_are_not_read (l : listing) (h : host) (config v : jsval)
        (n : Z) :
  GstLaunch.isAvailable l h GstLaunch.constructor = Ok true ->
  n <> 0%Z ->
  LiveCam.constructor l h (set_prop "gst_tcp_addr" v config) = LiveCam.constructor l h config /\
  LiveCam.constructor l h (set_prop "gst_tcp_port" v config) = LiveCam.constructor l h config /\
  (exists o, LiveCam.constructor l h config = Ok o /\
             LiveCam.gst_tcp_addr o = js_or (field config "gst_addr") (JStr "127.0.0.1") /\
             LiveCam.gst_tcp_port o = js_or (field config "gst_port") (JNum (Int 10000))) /\
  (exists o, LiveCam.constructor l h (set_prop "gst_port" (JNum (Int n)) config) = Ok o /\
             LiveCam.gst_tcp_port o = JNum (Int n)).
Proof.
  intros Ha Hn. split; [|split; [|split]].
  - apply LiveCam_constructor_fields. intros k Hk. rewrite field_set_prop.
    destruct (String.eqb_spec k "gst_tcp_addr") as [->|_]; [|reflexivity].
    simpl in Hk. repeat (destruct Hk as [Hk|Hk]; [discriminate|]). contradiction.
  - apply LiveCam_constructor_fields. intros k Hk. rewrite field_set_prop.
    destruct (String.eqb_spec k "gst_tcp_port") as [->|_]; [|reflexivity].
    simpl in Hk. repeat (destruct Hk as [Hk|Hk]; [discriminate|]). contradiction.
  - eexists. split; [now apply LiveCam_constructor_available|]. split; reflexivity.
  - eexists. split; [now apply LiveCam_constructor_available|].
    cbn [LiveCam.gst_tcp_port]. rewrite field_set_prop. cbn [String.eqb Ascii.eqb Bool.eqb].
    unfold js_or; cbn [truthy]. destruct (Z.eqb_spec n 0); [contradiction | reflexivity].
Qed.

(** X12.  An orchestrator that could be constructed can broadcast on the
    same host: [broadcast] does not raise, the child it starts is the one
    launched for the [webcam] configuration with the stored address and
    port of the pipeline, the wrapper is fresh, so that its last image is
    the empty string (and so is that of the orchestrator in the first
    listing, which has the method), and the stored settings are kept. *)
Theorem broadcast_after_construction (l : listing) (h : host) (config : jsval) (o : LiveCam.t) :
  LiveCam.constructor l h config = Ok o ->
  exists this child,
    LiveCam.broadcast l h o = Ok this /\
    LiveCam.gst_cam_process this = Some child /\
    launch l h (LiveCam.webcam o) (LiveCam.gst_tcp_addr o) (LiveCam.gst_tcp_port o) = Ok child /\
    LiveCam.gst_cam_wrap this = Some SocketCamWrapper.constructor /\
    SocketCamWrapper.getLastImage SocketCamWrapper.constructor = "" /\
    (l = Listing1 -> LiveCam.getLastImage this = "") /\
    LiveCam.start this = LiveCam.start o /\
    LiveCam.broadcast_addr this = LiveCam.broadcast_addr o /\
    LiveCam.broadcast_port this = LiveCam.broadcast_port o.
Proof.
  intros Ho. pose proof (LiveCam_constructor_ok_inv _ _ _ _ Ho) as Ha.
  destruct (available_path _ _ _ Ha) as [path Hp].
  unfold LiveCam.broadcast, launch.
  rewrite constructor_clauses. cbn [bind].
  rewrite (start_available l h _ _ _ path Ha Hp). cbn [bind].
  eexists. eexists. repeat split.
Qed.

Lemma quiet_chunk (l : listing) (this : LiveCam.t) (data : string) :
  holds_marker data = false -> LiveCam.on_stdout_data l this data = ([], Ok tt).
Proof.
  unfold holds_marker, LiveCam.on_stdout_data. intros Hm. now rewrite gt0_bool, Hm.
Qed.

Lemma quiet_chunks (l : listing) (this : LiveCam.t) (chunks rest : list string) :
  Forall (fun data => holds_marker data = false) chunks ->
  LiveCam.run_stdout l this (chunks ++ rest)%list = LiveCam.run_stdout l this rest.
Proof.
  induction 1 as [|data chunks Hd _ IH]; [reflexivity|].
  cbn [app LiveCam.run_stdout]. rewrite (quiet_chunk l this data Hd), IH.
  now destruct (LiveCam.run_stdout l this rest).
Qed.

(** X13.  In both listings the marker is looked for in each chunk on its
    own: chunks none of which holds the whole marker start nothing, also
    when the marker is there once they are put together. *)
Theorem marker_across_chunks_is_missed (l : listing) (this : LiveCam.t) (chunks : list string) :
  Forall (fun data => holds_marker data = false) chunks ->
  LiveCam.run_stdout l this chunks = ([], None).
Proof.
  intros Hq. rewrite <- (app_nil_r chunks). now rewrite quiet_chunks.
Qed.

(** X14.  In the second listing, with the wrapper set, a port of the
    pipeline that is a number from 0 to 65535 and a start callback that is
    a function or not configured, the relay is started once for every
    chunk that holds the marker, not once only, and the callback is called
    as many times; the handler does not raise. *)
Theorem relay_started_per_marker_chunk (this : LiveCam.t) (w : SocketCamWrapper.t)
        (chunks : list string) :
  LiveCam.gst_cam_wrap this = Some w ->
  port_in_range (LiveCam.gst_tcp_port this) ->
  (truthy (LiveCam.start this) = false \/ exists src, LiveCam.start this = JFun src) ->
  List.length (filter is_wrapped (fst (LiveCam.run_stdout Listing2 this chunks)))
    = List.length (filter holds_marker chunks) /\
  List.length (filter is_called (fst (LiveCam.run_stdout Listing2 this chunks)))
    = (if truthy (LiveCam.start this) then List.length (filter holds_marker chunks) else 0%nat) /\
  snd (LiveCam.run_stdout Listing2 this chunks) = None.
Proof.
  intros Hw Hport Hstart.
  rewrite (second_listing_ready_signal this w chunks Hw Hport Hstart).
  cbn [fst snd]. split; [|split; [|reflexivity]].
  - induction chunks as [|data rest IH]; [reflexivity|].
    cbn [flat_map filter]. rewrite filter_app, length_app, IH.
    unfold ready_actions, holds_marker.
    destruct (includes data "Setting pipeline to PLAYING"); [|reflexivity].
    now destruct (truthy (LiveCam.start this)).
  - induction chunks as [|data rest IH]; [now destruct (truthy _)|].
    cbn [flat_map filter]. rewrite filter_app, length_app, IH.
    unfold ready_actions, holds_marker.
    destruct (includes data "Setting pipeline to PLAYING");
      now destruct (truthy (LiveCam.start this)).
Qed.

(** X15.  In the second listing a start option that is truthy but no
    function, which the constructor lets through, makes the handler raise
    at the first chunk that holds the marker.  With a port of the pipeline
    that is a number from 0 to 65535 the relay is started first and the
    call of [this.start] then raises a TypeError; with a number outside
    that range [wrap] raises a RangeError out of [socket.connect] before
    anything else is done. *)
Theorem start_that_is_no_function_raises (this : LiveCam.t) (w : SocketCamWrapper.t)
        (before after : list string) (data : string) :
  LiveCam.gst_cam_wrap this = Some w ->
  truthy (LiveCam.start this) = true ->
  (forall src, LiveCam.start this <> JFun src) ->
  Forall (fun data => holds_marker data = false) before ->
  holds_marker data = true ->
  (port_in_range (LiveCam.gst_tcp_port this) ->
   LiveCam.run_stdout Listing2 this (before ++ data :: after)%list =
   ([LiveCam.Wrapped (LiveCam.gst_tcp_addr this) (LiveCam.gst_tcp_port this)
       (LiveCam.broadcast_addr this) (LiveCam.broadcast_port this)],
    Some (TypeError "this.start is not a function"))) /\
  (forall z, LiveCam.gst_tcp_port this = JNum (Int z) -> (z < 0 \/ 65535 < z)%Z ->
   LiveCam.run_stdout Listing2 this (before ++ data :: after)%list =
   ([], Some (RangeError "ERR_SOCKET_BAD_PORT"))).
Proof.
  intros Hw Ht Hnf Hq Hm. rewrite quiet_chunks by exact Hq.
  cbn [LiveCam.run_stdout]. unfold LiveCam.on_stdout_data.
  unfold holds_marker in Hm. rewrite gt0_bool, Hm, Hw. split.
  - intros Hport. rewrite (wrap_ok _ _ _ _ _ Hport), Ht.
    destruct (LiveCam.start this) as [| | | | | |src]; try reflexivity.
    now destruct (Hnf src).
  - intros z Hz Hout. rewrite wrap_connect, Hz.
    cbn [SocketCamWrapper.connect SocketCamWrapper.validate_port
         SocketCamWrapper.port_number_ok].
    destruct (Z.leb_spec 0 z); destruct (Z.leb_spec z 65535); try lia; reflexivity.
Qed.

(** X16.  On win32 the second listing takes the installation root from
    the environment only if one root is set, or if both are and the
    architecture reads x64 or x32.  With both roots set and any other
    architecture the roots are passed over, the scan of PATH finds
    nothing, and the tool counts as unavailable. *)
Theorem win32_both_roots_other_arch (h : host) (config : jsval) (root64 root32 : string) :
  platform h = "win32" ->
  env h "GSTREAMER_1_0_ROOT_X86_64" = Some root64 -> root64 <> "" ->
  env h "GSTREAMER_1_0_ROOT_X86" = Some root32 -> root32 <> "" ->
  arch h <> "x64" -> arch h <> "x32" ->
  GstLaunch.isAvailable Listing2 h GstLaunch.constructor = Ok false /\
  LiveCam.constructor Listing2 h config = Throw (Error "Unable to broadcast.").
Proof.
  intros Hw H64 Hn64 H32 Hn32 Hx64 Hx32.
  assert (Hroot : win32_root h = JUndefined).
  { unfold win32_root, env_val, js_or, js_and. rewrite H64, H32. cbn [truthy].
    apply String.eqb_neq in Hn64, Hn32, Hx64, Hx32.
    repeat (cbn [truthy negb]; rewrite ?Hn64, ?Hn32, ?Hx64, ?Hx32). reflexivity. }
  assert (Hfail : version_query_failure Listing2 h GstLaunch.constructor).
  { pose proof (getPath2_cases h GstLaunch.constructor) as Hp.
    rewrite Hw, Hroot in Hp. cbn [String.eqb Ascii.eqb Bool.eqb truthy] in Hp.
    unfold blind_scan in Hp. destruct (env h "PATH").
    - apply (executable_absent _ _ _ _ Hp). discriminate.
    - exact (path_search_raises _ _ _ _ Hp). }
  pose proof (isAvailable_false _ _ _ Hfail) as Ha.
  split; [exact Ha | now apply LiveCam_constructor_unavailable].
Qed.
End Orchestrator.

(** ** The relay, further *)

Section RelayInvariants.
Import SocketCamWrapper.

Lemma last_snoc {A : Type} (xs : list A) (x d : A) : last (xs ++ [x])%list d = x.
Proof.
  induction xs as [|y xs IH]; [reflexivity|].
  cbn [app]. destruct (xs ++ [x])%list eqn:E; [now destruct xs | exact IH].
Qed.

Lemma last_app_default {A : Type} (xs ys : list A) (d : A) :
  last (xs ++ ys)%list d = last ys (last xs d).
Proof.
  revert xs. induction ys as [|y ys IH] using rev_ind; intros xs.
  - now rewrite app_nil_r.
  - now rewrite app_assoc, !last_snoc.
Qed.

Lemma parts_published (parts : list (list (list Byte.byte))) (r : relay) (srv : push_server) :
  io (this r) = Some srv ->
  exists r',
    run Listing2 r (flat_map part_events parts) = (r', None) /\
    emitted r' = (emitted r ++ map image_event parts)%list /\
    lastImage (this r') = last (map snd (map image_event parts)) (lastImage (this r)) /\
    io (this r') = io (this r).
Proof.
  revert r. induction parts as [|chunks parts IH]; intros r Hio.
  - exists r. cbn. now rewrite app_nil_r.
  - cbn [flat_map]. rewrite (RelayFacts.part_published chunks r srv _ Hio).
    match goal with |- context [run Listing2 ?r1 _] => destruct (IH r1 Hio) as (r' & Hrun & Hem & Hlast & Hio') end.
    exists r'. split; [exact Hrun|]. cbn [this emitted lastImage io] in *.
    split; [|split].
    + rewrite Hem, <- app_assoc. reflexivity.
    + rewrite Hlast. cbn [map].
      change (snd (image_event chunks) :: map snd (map image_event parts))
        with ([snd (image_event chunks)] ++ map snd (map image_event parts))%list.
      rewrite last_app_default. reflexivity.
    + exact Hio'.
Qed.

(** X17.  In the second listing a stream of any number of parts makes the
    relay publish one "image" event per part, in the order of the parts,
    each with the base64 encoding of the body of its part however it was
    cut into chunks; [getLastImage] then answers the payload of the last
    event, or the empty string when there was no part. *)
Theorem every_part_is_published (addr port : jsval) (parts : list (list (list Byte.byte))) :
  exists r,
    run Listing2 (connected addr port) (flat_map part_events parts) = (r, None) /\
    emitted r = map image_event parts /\
    getLastImage (this r) = last_payload (map image_event parts).
Proof.
  destruct (parts_published parts (connected addr port)
              {| listen_port := port; listen_addr := addr |} eq_refl)
    as (r & Hrun & Hem & Hlast & _).
  exists r. split; [exact Hrun|]. split; [exact Hem|].
  unfold getLastImage, last_payload. exact Hlast.
Qed.

Lemma step_keeps_inv (r : relay) (ev : dicer_event) :
  relay_inv r -> exists r', step Listing2 r ev = Ok r' /\ relay_inv r'.
Proof.
  intros Hinv. pose proof Hinv as ((srv & Hio) & Hlast & Hall).
  assert (Hkeep : forall cur,
            relay_inv {| this := this r; current := cur; emitted := emitted r |}).
  { intros cur. split; [now exists srv|]. now split. }
  destruct ev as [|chunk| | |]; cbn [step].
  - eexists. split; [reflexivity | apply Hkeep].
  - destruct (current r) as [p|].
    + destruct (decoder_write (held p) chunk) as [data held'].
      eexists. split; [reflexivity | apply Hkeep].
    + now exists r.
  - destruct (current r) as [p|].
    + unfold on_end. rewrite Hio. eexists. split; [reflexivity|].
      split; [now exists srv|]. cbn [this emitted lastImage]. split.
      * unfold last_payload. rewrite map_app. cbn [map snd]. now rewrite last_snoc.
      * apply Forall_app. split; [exact Hall | now repeat constructor].
    + now exists r.
  - now exists r.
  - now exists r.
Qed.

(** X18.  In the second listing the handlers never raise, whatever events
    arrive and in whatever order, once the relay is connected; and after
    any run [getLastImage] answers the payload of the event published
    last (the empty string when nothing was published), and every event
    published is an "image" event. *)
Theorem last_image_follows_publication (addr port : jsval) (events : list dicer_event) :
  exists r,
    run Listing2 (connected addr port) events = (r, None) /\
    getLastImage (this r) = last_payload (emitted r) /\
    Forall (fun ev => fst ev = "image") (emitted r).
Proof.
  assert (Hgen : forall evs r, relay_inv r ->
            exists r', run Listing2 r evs = (r', None) /\ relay_inv r').
  { induction evs as [|ev evs IH]; intros r Hinv.
    - now exists r.
    - destruct (step_keeps_inv r ev Hinv) as (r1 & Hstep & Hinv1).
      destruct (IH r1 Hinv1) as (r' & Hrun & Hinv').
      exists r'. cbn [run]. now rewrite Hstep. }
  assert (H0 : relay_inv (connected addr port)).
  { split; [now eexists|]. split; [reflexivity | constructor]. }
  destruct (Hgen events _ H0) as (r & Hrun & _ & Hlast & Hall).
  now exists r.
Qed.

Lemma step_first_listing (r r' : relay) (ev : dicer_event) :
  step Listing1 r ev = Ok r' -> emitted r' = emitted r /\ this r' = this r.
Proof.
  destruct ev as [|chunk| | |]; cbn [step].
  - intros E; injection E as <-. now split.
  - destruct (current r) as [p|].
    + destruct (decoder_write (held p) chunk) as [data held'].
      intros E; injection E as <-. now split.
    + intros E; injection E as <-. now split.
  - destruct (current r) as [p|]; [discriminate|].
    intros E; injection E as <-. now split.
  - intros E; injection E as <-. now split.
  - intros E; injection E as <-. now split.
Qed.

(** X19.  In the first listing the relay never publishes and never changes
    the last image, whatever events arrive: a run leaves both as they
    were, and if it ends early it is by the ReferenceError for [io]. *)
Theorem first_listing_relay_is_silent (r r' : relay) (events : list dicer_event)
        (e : option exn) :
  run Listing1 r events = (r', e) ->
  emitted r' = emitted r /\
  getLastImage (this r') = getLastImage (this r) /\
  (e = None \/ e = Some (ReferenceError "io")).
Proof.
  revert r. induction events as [|ev events IH]; intros r Hrun.
  - injection Hrun as <- <-. auto.
  - cbn [run] in Hrun. destruct (step Listing1 r ev) as [r1|x] eqn:Hstep.
    + destruct (step_first_listing _ _ _ Hstep) as [Hem Hthis].
      destruct (IH r1 Hrun) as (Hem' & Hlast' & He).
      rewrite Hem', Hlast', Hem, Hthis. auto.
    + injection Hrun as <- <-. split; [reflexivity|]. split; [reflexivity|]. right.
      destruct ev as [|chunk| | |]; cbn [step] in Hstep; try discriminate.
      * destruct (current r) as [p|]; [|discriminate].
        destruct (decoder_write (held p) chunk); discriminate.
      * destruct (current r) as [p|]; [|discriminate].
        unfold on_end, unbound in Hstep. cbn [bind] in Hstep. now injection Hstep as <-.
Qed.
End RelayInvariants.

(** ** The scale clause, further *)

Lemma Z_to_string_negative (z : Z) :
  (z < 0)%Z -> exists digits, Z_to_string z = String "-" digits.
Proof.
  destruct z as [|p|p]; try lia. intros _.
  unfold Z_to_string, NilZero.string_of_int. cbn [Z.to_int]. eauto.
Qed.

Section ScaleClause.
Context `{Runtime}.

(** X20.  The scale clause is written as soon as one of width and height
    is positive, and for safe integers it then carries the other value as
    it is: with a positive width and a negative height, both safe
    integers, the source chain holds [,height=-]. *)
Theorem scale_clause_carries_negative_side (l : listing) (config : jsval) (w h : Z) :
  field config "width" = JNum (Int w) ->
  field config "height" = JNum (Int h) ->
  (0 < w)%Z -> (h < 0)%Z ->
  safe_integer w = true -> safe_integer h = true ->
  exists s,
    GstLiveCamServer.constructor l config = Ok s /\
    scale_clause (GstLiveCamServer.width s) (GstLiveCamServer.height s)
      = " ! videoscale ! video/x-raw,width=" ++ Z_to_string w ++ ",height=" ++ Z_to_string h /\
    includes (GstLiveCamServer.gst_video_src s) ",height=-" = true.
Proof.
  intros Hw Hh Hwpos Hhneg Hwsafe Hhsafe.
  eexists. split; [apply constructor_clauses|].
  cbn [GstLiveCamServer.width GstLiveCamServer.height GstLiveCamServer.gst_video_src].
  rewrite Hw, Hh.
  assert (Ew : js_or (JNum (Int w)) (JNum (Int 800)) = JNum (Int w)).
  { unfold js_or; cbn [truthy]. destruct (Z.eqb_spec w 0); [lia | reflexivity]. }
  assert (Eh : js_or (JNum (Int h)) (JNum (Int 600)) = JNum (Int h)).
  { unfold js_or; cbn [truthy]. destruct (Z.eqb_spec h 0); [lia | reflexivity]. }
  rewrite Ew, Eh.
  assert (Es : scale_clause (JNum (Int w)) (JNum (Int h))
               = " ! videoscale ! video/x-raw,width=" ++ Z_to_string w
                   ++ ",height=" ++ Z_to_string h).
  { unfold scale_clause, gt0; cbn [ToNumber parseInt]. rewrite Hwsafe, Hhsafe.
    cbn [number_to_string]. rewrite Hwsafe, Hhsafe.
    destruct (Z.ltb_spec 0 w); [reflexivity | lia]. }
  split; [exact Es|].
  rewrite Es. destruct (Z_to_string_negative h Hhneg) as [digits ->].
  apply includes_suffix.
  rewrite <- !append_assoc. rewrite !append_assoc.
  apply includes_suffix. apply includes_suffix.
  apply (includes_app_l ",height=-"). reflexivity.
Qed.
End ScaleClause.

(** ** Instances of the further properties *)

(** The Linux machine: the last of the three PATH entries wins. *)
Lemma getPath_first_listing_last_match_witness :
  GstLaunch.getPath Listing1 linux_host GstLaunch.constructor
    = Ok (JStr "/opt/gst/bin/gst-launch-1.0").
Proof.
  exact (getPath_first_listing_last_match linux_host GstLaunch.constructor
           "/usr/local/bin:/usr/bin:/opt/gst/bin" eq_refl).
Defined.

Lemma getPath_answers_existing_file_witness :
  accessible linux_host "/opt/gst/bin/gst-launch-1.0" = true.
Proof.
  exact (getPath_answers_existing_file Listing1 linux_host GstLaunch.constructor
           "/opt/gst/bin/gst-launch-1.0" eq_refl).
Defined.

Lemma getPath_second_listing_sources_witness :
  (platform darwin_host = "win32" /\
   exists root,
     (env darwin_host "GSTREAMER_1_0_ROOT_X86_64" = Some root \/
      env darwin_host "GSTREAMER_1_0_ROOT_X86" = Some root) /\
     "/usr/local/bin/gst-launch-1.0"
       = Path_join [root; "bin";
                    GstLaunch.gst_launch_executable GstLaunch.constructor ++ ".exe"]) \/
  (platform darwin_host = "darwin" /\
   "/usr/local/bin/gst-launch-1.0" = "/usr/local/bin/gst-launch-1.0").
Proof.
  exact (getPath_second_listing_sources darwin_host GstLaunch.constructor
           "/usr/local/bin/gst-launch-1.0" eq_refl).
Defined.

(** The scenario launched on the Linux machine: one argument is empty. *)
Lemma start_arguments_witness :
  exists child,
    launch Listing1 linux_host scenario_config (JStr "127.0.0.1") (JNum (Int 10000)) = Ok child /\
    In "" (spawn_args child) /\
    accessible linux_host (spawn_file child) = true.
Proof.
  unfold launch. rewrite constructor_clauses. cbn [bind].
  match goal with
  | |- context [GstLiveCamServer.start _ _ ?s ?a ?p] =>
      destruct (GstLiveCamServer.start Listing1 linux_host s a p) as [child|e] eqn:E
  end.
  - exists child. split; [reflexivity|].
    destruct (start_arguments _ _ _ _ _ _ E) as (_ & _ & Hin & Hfile). now split.
  - vm_compute in E. discriminate.
Defined.

Lemma unset_PATH_means_unavailable_witness :
  GstLaunch.isAvailable Listing1 pathless_host GstLaunch.constructor = Ok false /\
  LiveCam.constructor Listing1 pathless_host ready_config = Throw (Error "Unable to broadcast.").
Proof.
  destruct (unset_PATH_means_unavailable pathless_host
              {| GstLiveCamServer.fake := JBool false; GstLiveCamServer.width := JNum (Int 800);
                 GstLiveCamServer.height := JNum (Int 600);
                 GstLiveCamServer.framerate := JNum (Int 30);
                 GstLiveCamServer.grayscale := JBool false;
                 GstLiveCamServer.deviceIndex := JNum (Int (-1));
                 GstLiveCamServer.gst_multipart_boundary := "--videoboundary";
                 GstLiveCamServer.gst_video_src := "videotestsrc" |}
              ready_config (JStr "127.0.0.1") (JNum (Int 10000)) "videotestsrc ! fakesink"
              eq_refl) as (_ & _ & Ha & _ & _ & Hc).
  now split.
Defined.

Lemma second_listing_unusable_on_linux_witness :
  GstLaunch.isAvailable Listing2 linux_host GstLaunch.constructor = Ok false /\
  LiveCam.constructor Listing2 linux_host ready_config = Throw (Error "Unable to broadcast.").
Proof.
  destruct (second_listing_unusable_on_linux linux_host
              {| GstLiveCamServer.fake := JBool false; GstLiveCamServer.width := JNum (Int 800);
                 GstLiveCamServer.height := JNum (Int 600);
                 GstLiveCamServer.framerate := JNum (Int 30);
                 GstLiveCamServer.grayscale := JBool false;
                 GstLiveCamServer.deviceIndex := JNum (Int (-1));
                 GstLiveCamServer.gst_multipart_boundary := "--videoboundary";
                 GstLiveCamServer.gst_video_src := "videotestsrc" |}
              ready_config (JStr "127.0.0.1") (JNum (Int 10000)) eq_refl) as (Ha & _ & Hc).
  now split.
Defined.

Lemma version_token_is_one_line_witness :
  all_chars (fun c => negb (isLineTerminator c)) "1.20.3" = true /\
  head_is isWhiteSpace "1.20.3" = false.
Proof.
  exact (version_token_is_one_line Listing1 linux_host GstLaunch.constructor "1.20.3" eq_refl).
Defined.

Lemma version_read_from_banner_witness :
  GstLaunch.getVersion Listing1 linux_host GstLaunch.constructor = Ok (JStr "1.20.3") /\
  GstLaunch.isAvailable Listing1 linux_host GstLaunch.constructor = Ok true.
Proof.
  exact (version_read_from_banner Listing1 linux_host GstLaunch.constructor
           "/opt/gst/bin/gst-launch-1.0" ("gst-launch-1.0 version 1.20.3" ++ LF) "1.20.3"
           ("https://launchpad.net/distros/ubuntu/+source/gstreamer1.0" ++ LF)
           eq_refl eq_refl eq_refl eq_refl eq_refl).
Defined.

Lemma documented_sink_options_are_not_read_witness :
  LiveCam.constructor Listing1 linux_host (set_prop "gst_tcp_port" (JNum (Int 5000)) ready_config)
    = LiveCam.constructor Listing1 linux_host ready_config.
Proof.
  assert (Ha : GstLaunch.isAvailable Listing1 linux_host GstLaunch.constructor = Ok true)
    by reflexivity.
  destruct (documented_sink_options_are_not_read Listing1 linux_host ready_config
              (JNum (Int 5000)) 5000 Ha ltac:(discriminate)) as (_ & Hport & _).
  exact Hport.
Defined.

Lemma broadcast_after_construction_witness :
  exists o this,
    LiveCam.constructor Listing1 linux_host ready_config = Ok o /\
    LiveCam.broadcast Listing1 linux_host o = Ok this /\
    LiveCam.getLastImage this = "".
Proof.
  destruct (LiveCam.constructor Listing1 linux_host ready_config) as [o|e] eqn:E.
  - destruct (broadcast_after_construction Listing1 linux_host ready_config o E)
      as (this & child & Hb & _ & _ & _ & _ & Hlast & _).
    exists o, this. split; [reflexivity|]. split; [exact Hb | now apply Hlast].
  - vm_compute in E. discriminate.
Defined.

(** The marker cut in two: the pieces together hold it, yet nothing is
    started. *)
Lemma marker_across_chunks_is_missed_witness :
  holds_marker (String.concat "" cut_marker) = true /\
  forall this, LiveCam.run_stdout Listing2 this cut_marker = ([], None).
Proof.
  split; [reflexivity|]. intros this.
  apply (marker_across_chunks_is_missed Listing2 this cut_marker).
  repeat constructor.
Defined.

Lemma relay_started_per_marker_chunk_witness :
  exists this,
    broadcasting Listing2 darwin_host ready_config = Ok this /\
    List.length (filter is_wrapped
                   (fst (LiveCam.run_stdout Listing2 this
                           [playing_chunk; paused_chunk; playing_chunk]))) = 2%nat.
Proof.
  destruct (broadcasting Listing2 darwin_host ready_config) as [this|e] eqn:E.
  - exists this. split; [reflexivity|].
    vm_compute in E. injection E as <-.
    assert (Hport : port_in_range (JNum (Int 10000))) by (exists 10000%Z; split; [reflexivity | lia]).
    match goal with
    | |- context [LiveCam.run_stdout Listing2 ?t _] =>
        exact (proj1 (relay_started_per_marker_chunk t SocketCamWrapper.constructor
                        [playing_chunk; paused_chunk; playing_chunk] eq_refl
                        Hport
                        (or_intror (ex_intro _ "() => console.log('streaming')" eq_refl))))
    end.
  - vm_compute in E. discriminate.
Defined.

Lemma start_that_is_no_function_raises_witness :
  exists this,
    broadcasting Listing2 darwin_host careless_config = Ok this /\
    LiveCam.run_stdout Listing2 this [paused_chunk; playing_chunk]
      = ([LiveCam.Wrapped (JStr "127.0.0.1") (JNum (Int 10000))
            (JStr "127.0.0.1") (JNum (Int 12000))],
         Some (TypeError "this.start is not a function")).
Proof.
  destruct (broadcasting Listing2 darwin_host careless_config) as [this|e] eqn:E.
  - exists this. split; [reflexivity|].
    vm_compute in E. injection E as <-.
    assert (Hport : port_in_range (JNum (Int 10000))) by (exists 10000%Z; split; [reflexivity | lia]).
    match goal with
    | |- context [LiveCam.run_stdout Listing2 ?t _] =>
        pose proof (proj1 (start_that_is_no_function_raises t SocketCamWrapper.constructor
                             [paused_chunk] [] playing_chunk eq_refl eq_refl
                             ltac:(discriminate) ltac:(repeat constructor) eq_refl)
                      Hport) as Hrun
    end.
    cbn [app] in Hrun. exact Hrun.
  - vm_compute in E. discriminate.
Defined.

Lemma win32_both_roots_other_arch_witness :
  GstLaunch.isAvailable Listing2 win32_host GstLaunch.constructor = Ok false /\
  LiveCam.constructor Listing2 win32_host ready_config = Throw (Error "Unable to broadcast.").
Proof.
  exact (win32_both_roots_other_arch win32_host ready_config
           "C:/gstreamer/1.0/x86_64" "C:/gstreamer/1.0/x86"
           eq_refl eq_refl ltac:(discriminate) eq_refl ltac:(discriminate)
           ltac:(discriminate) ltac:(discriminate)).
Defined.

Lemma first_listing_relay_is_silent_witness :
  exists r e,
    SocketCamWrapper.run Listing1
      (SocketCamWrapper.connected (JStr "127.0.0.1") (JNum (Int 12000)))
      [SocketCamWrapper.Finish; SocketCamWrapper.Part;
       SocketCamWrapper.Push [Byte.x4d; Byte.x61; Byte.x6e]; SocketCamWrapper.PartEnd]
      = (r, e) /\
    SocketCamWrapper.emitted r = [] /\
    SocketCamWrapper.getLastImage (SocketCamWrapper.this r) = "".
Proof.
  eexists. eexists. split; [vm_compute; reflexivity|].
  match goal with
  | |- SocketCamWrapper.emitted ?r = _ /\ _ =>
      destruct (first_listing_relay_is_silent
                  (SocketCamWrapper.connected (JStr "127.0.0.1") (JNum (Int 12000))) r
                  [SocketCamWrapper.Finish; SocketCamWrapper.Part;
                   SocketCamWrapper.Push [Byte.x4d; Byte.x61; Byte.x6e];
                   SocketCamWrapper.PartEnd]
                  (Some (ReferenceError "io")) eq_refl) as (Hem & Hlast & _)
  end.
  split; [exact Hem | exact Hlast].
Defined.

Lemma scale_clause_carries_negative_side_witness :
  exists s,
    GstLiveCamServer.constructor Listing1 lopsided_config = Ok s /\
    includes (GstLiveCamServer.gst_video_src s) ",height=-" = true.
Proof.
  destruct (scale_clause_carries_negative_side Listing1 lopsided_config 640 (-1)
              eq_refl eq_refl eq_refl eq_refl eq_refl eq_refl) as (s & Hs & _ & Hin).
  now exists s.
Defined.
